(** * check-and-ping: scheduling and alert-deduplication core

    A shallow embedding of the Go packages [internal/check],
    [internal/state], [internal/notifier] and [internal/scheduler], and the
    properties of the backoff controller, the dedup ledger and the fan-out
    notifier.

    Conventions of the embedding:
    - Go [string]s are byte sequences: [string] (a list of 8-bit [ascii]).
    - Go [int] and [time.Duration] are 64-bit two's complement integers
      (the program is built for a 64-bit target): [Z] with the wrap-around
      written out ([wrap64]).
    - A Go [map[string]T] and the single SQLite table keyed by its primary
      key are [gmap string T].
    - The outcome of an effect that the environment decides (what a probe
      returns, whether a database statement fails, what the clock shows) is
      an explicit input of the function that performs it.
    - Calls made on collaborators are recorded in a call log, so that
      statements about which calls happen can be made.  Log lines written
      to [s.logger] are not part of the model.
    - One check's executions are sequential ([runCheck] starts the next one
      only after the previous one has returned); the goroutines of several
      checks are not interleaved here. *)

From Stdlib Require Import ZArith List String Ascii Bool Lia.
From stdpp Require Import base option list gmap strings.
Import ListNotations.

Local Open Scope Z_scope.

(* ===================================================================== *)
(** ** crypto/sha256 and encoding/hex (Go standard library)              *)
(* ===================================================================== *)

Module sha256.

Definition w32 (x : Z) : Z := x mod 2 ^ 32.

Definition add32 (x y : Z) : Z := w32 (x + y).

Definition rotr (n x : Z) : Z :=
  Z.lor (Z.shiftr x n) (w32 (Z.shiftl x (32 - n))).

Definition not32 (x : Z) : Z := Z.lxor x (2 ^ 32 - 1).

Definition Ch (x y z : Z) : Z := Z.lxor (Z.land x y) (Z.land (not32 x) z).

Definition Maj (x y z : Z) : Z :=
  Z.lxor (Z.lxor (Z.land x y) (Z.land x z)) (Z.land y z).

Definition bsig0 (x : Z) : Z :=
  Z.lxor (Z.lxor (rotr 2 x) (rotr 13 x)) (rotr 22 x).

Definition bsig1 (x : Z) : Z :=
  Z.lxor (Z.lxor (rotr 6 x) (rotr 11 x)) (rotr 25 x).

Definition ssig0 (x : Z) : Z :=
  Z.lxor (Z.lxor (rotr 7 x) (rotr 18 x)) (Z.shiftr x 3).

Definition ssig1 (x : Z) : Z :=
  Z.lxor (Z.lxor (rotr 17 x) (rotr 19 x)) (Z.shiftr x 10).

(** Round constants, in decimal. *)
Definition K : list Z :=
  [ 1116352408; 1899447441; 3049323471; 3921009573; 961987163; 1508970993;
    2453635748; 2870763221; 3624381080; 310598401; 607225278; 1426881987;
    1925078388; 2162078206; 2614888103; 3248222580; 3835390401; 4022224774;
    264347078; 604807628; 770255983; 1249150122; 1555081692; 1996064986;
    2554220882; 2821834349; 2952996808; 3210313671; 3336571891; 3584528711;
    113926993; 338241895; 666307205; 773529912; 1294757372; 1396182291;
    1695183700; 1986661051; 2177026350; 2456956037; 2730485921; 2820302411;
    3259730800; 3345764771; 3516065817; 3600352804; 4094571909; 275423344;
    430227734; 506948616; 659060556; 883997877; 958139571; 1322822218;
    1537002063; 1747873779; 1955562222; 2024104815; 2227730452; 2361852424;
    2428436474; 2756734187; 3204031479; 3329325298 ].

Definition init : list Z :=
  [ 1779033703; 3144134277; 1013904242; 2773480762;
    1359893119; 2600822924; 528734635; 1541459225 ].

(** Big-endian encodings. *)
Definition be32 (b3 b2 b1 b0 : Z) : Z :=
  Z.lor (Z.lor (Z.shiftl b3 24) (Z.shiftl b2 16)) (Z.lor (Z.shiftl b1 8) b0).

Definition bytes_of_be32 (w : Z) : list Z :=
  [ Z.shiftr w 24 mod 256; Z.shiftr w 16 mod 256; Z.shiftr w 8 mod 256; w mod 256 ].

Definition bytes_of_be64 (w : Z) : list Z :=
  bytes_of_be32 (Z.shiftr w 32) ++ bytes_of_be32 (w mod 2 ^ 32).

Fixpoint words (bs : list Z) : list Z :=
  match bs with
  | b3 :: b2 :: b1 :: b0 :: rest => be32 b3 b2 b1 b0 :: words rest
  | _ => []
  end.

(** The message followed by 0x80, zeroes up to 56 mod 64, and the bit
    length on eight bytes. *)
Definition pad (msg : list Z) : list Z :=
  let len := Z.of_nat (length msg) in
  msg ++ [128] ++ repeat 0 (Z.to_nat ((55 - len) mod 64)) ++ bytes_of_be64 (8 * len).

(** The message schedule, newest word first. *)
Fixpoint schedule (n : nat) (rw : list Z) : list Z :=
  match n with
  | O => rw
  | S n' =>
      let w := add32 (add32 (ssig1 (nth 1 rw 0)) (nth 6 rw 0))
                     (add32 (ssig0 (nth 14 rw 0)) (nth 15 rw 0)) in
      schedule n' (w :: rw)
  end.

Definition round (s : list Z) (kw : Z * Z) : list Z :=
  match s with
  | [a; b; c; d; e; f; g; h] =>
      let t1 := add32 (add32 (add32 h (bsig1 e)) (add32 (Ch e f g) (fst kw))) (snd kw) in
      let t2 := add32 (bsig0 a) (Maj a b c) in
      [add32 t1 t2; a; b; c; add32 d t1; e; f; g]
  | _ => s
  end.

Definition block (h : list Z) (blk : list Z) : list Z :=
  let w := rev (schedule 48 (rev (words blk))) in
  let s := fold_left round (combine K w) h in
  map (fun p => add32 (fst p) (snd p)) (combine h s).

Fixpoint blocks (n : nat) (h : list Z) (bs : list Z) : list Z :=
  match n with
  | O => h
  | S n' => blocks n' (block h (firstn 64 bs)) (skipn 64 bs)
  end.

(** The 32-byte digest of a byte sequence. *)
Definition Sum256 (msg : list Z) : list Z :=
  let p := pad msg in
  flat_map bytes_of_be32 (blocks (Nat.div (length p) 64) init p).

(** The streaming digest of [sha256.New()]: [Write] appends to the
    running input and [Sum(nil)] is the digest of everything written. *)
Definition digest : Type := list Z.
Definition New : digest := [].
Definition Write (d : digest) (p : list Z) : digest := d ++ p.
Definition Sum (d : digest) : list Z := Sum256 d.

End sha256.

Module hex.

Definition hextable : string := "0123456789abcdef".

Definition digit (n : Z) : ascii :=
  match String.get (Z.to_nat n) hextable with
  | Some c => c
  | None => "0"%char
  end.

(** [hex.EncodeToString]: two lower-case digits per byte. *)
Fixpoint EncodeToString (src : list Z) : string :=
  match src with
  | [] => EmptyString
  | b :: rest =>
      String (digit (Z.shiftr b 4)) (String (digit (Z.land b 15)) (EncodeToString rest))
  end.

End hex.

(** [[]byte(s)] *)
Fixpoint bytes (s : string) : list Z :=
  match s with
  | EmptyString => []
  | String a s' => Z.of_N (N_of_ascii a) :: bytes s'
  end.

(** A Go [error] is represented by its message; [nil] is [None]. *)
Definition error : Type := string.

(* ===================================================================== *)
(** ** package check                                                     *)
(* ===================================================================== *)

Module check.

(** [type Priority int] with its four constants; no other value is
    produced anywhere in the program. *)
Inductive Priority : Type :=
  | PriorityLow
  | PriorityNormal
  | PriorityHigh
  | PriorityUrgent.

Definition Priority_String (p : Priority) : string :=
  match p with
  | PriorityLow => "low"
  | PriorityNormal => "normal"
  | PriorityHigh => "high"
  | PriorityUrgent => "urgent"
  end.

Module CheckResult.
Record t : Type := mk {
    ShouldAlert : bool;
    Title : string;
    Message : string;
    Priority : Priority;
    Tags : list string;
    Metadata : gmap string string
  }.
End CheckResult.

(** What one call of a [CheckFunc] returns: [(CheckResult{}, err)] or
    [(result, nil)].  The probe talks to the network, so its outcome is
    an input of each execution. *)
Inductive RunOutcome : Type :=
  | RunErr (err : error)
  | RunOk (result : CheckResult.t).

Module Check.
Record t : Type := mk {
    Name : string;
    Interval : Z  (* time.Duration, nanoseconds *)
  }.
End Check.

Module Alert.
Record t : Type := mk {
    CheckName : string;
    Title : string;
    Message : string;
    Priority : Priority;
    Tags : list string;
    Metadata : gmap string string;
    Timestamp : Z
  }.
End Alert.

(** [now] is the value of [time.Now()]. *)
Definition NewAlertFromResult (checkName : string) (result : CheckResult.t) (now : Z)
  : Alert.t :=
  {| Alert.CheckName := checkName;
     Alert.Title := CheckResult.Title result;
     Alert.Message := CheckResult.Message result;
     Alert.Priority := CheckResult.Priority result;
     Alert.Tags := CheckResult.Tags result;
     Alert.Metadata := CheckResult.Metadata result;
     Alert.Timestamp := now |}.

End check.

(* ===================================================================== *)
(** ** package state                                                     *)
(* ===================================================================== *)

Module state.

(** [Hash] generates a hash from alert content for deduplication. *)
Definition Hash (title message : string) : string :=
  let h := sha256.New in
  let h := sha256.Write h (bytes title) in
  let h := sha256.Write h (bytes message) in
  String.substring 0 16 (hex.EncodeToString (sha256.Sum h)).

Record alertRecord : Type := mkRecord {
    hash : string;
    alertedAt : Z
  }.

(** The in-memory ledger.  Its mutex serialises the methods, each of
    which is therefore one atomic step on the map. *)
Module Memory.

Record t : Type := mk { alerts : gmap string alertRecord }.

Definition NewMemory : t := {| alerts := ∅ |}.

(** [ShouldAlert] only reads the map (under the read lock): the ledger is
    handed back as it was received. *)
Definition ShouldAlert (m : t) (checkName resultHash : string) : t * bool :=
  match alerts m !! checkName with
  | None => (m, true)
  | Some record => (m, bool_decide (hash record ≠ resultHash))
  end.

Definition MarkAlerted (m : t) (now : Z) (checkName resultHash : string)
  : t * option error :=
  ({| alerts := <[checkName := {| hash := resultHash; alertedAt := now |}]> (alerts m) |},
   None).

Definition Clear (m : t) (checkName : string) : t * option error :=
  ({| alerts := delete checkName (alerts m) |}, None).

Definition Close (m : t) : option error := None.

End Memory.

(** The durable ledger: one table [alert_state] whose primary key is
    [check_name].  Every statement sent to the database may fail; [io] is
    the failure the driver reports for the statement, if any.  A failed
    statement leaves the table as it was. *)
Module SQLite.

Record row : Type := mkRow {
    result_hash : string;
    alerted_at : Z
  }.

Record t : Type := mk { db : gmap string row }.

(** [db.QueryRow("SELECT result_hash ... WHERE check_name = ?").Scan(&storedHash)] *)
Inductive scan : Type :=
  | ErrNoRows
  | ErrOther (err : error)
  | Scanned (storedHash : string).

Definition QueryRow_Scan (s : t) (io : option error) (checkName : string) : scan :=
  match io with
  | Some err => ErrOther err
  | None =>
      match db s !! checkName with
      | None => ErrNoRows
      | Some r => Scanned (result_hash r)
      end
  end.

(** The only statement of [ShouldAlert] is a [SELECT]: the table is
    handed back as it was received. *)
Definition ShouldAlert (s : t) (io : option error) (checkName resultHash : string)
  : t * bool :=
  match QueryRow_Scan s io checkName with
  | ErrNoRows => (s, true)
  | ErrOther _ =>
      (* On error, err on the side of alerting *)
      (s, true)
  | Scanned storedHash => (s, bool_decide (storedHash ≠ resultHash))
  end.

(** [INSERT ... ON CONFLICT(check_name) DO UPDATE SET ...] *)
Definition MarkAlerted (s : t) (io : option error) (now : Z)
           (checkName resultHash : string) : t * option error :=
  match io with
  | Some err => (s, Some ("upsert alert state: " +:+ err))
  | None =>
      ({| db := <[checkName := {| result_hash := resultHash; alerted_at := now |}]> (db s) |},
       None)
  end.

(** [DELETE FROM alert_state WHERE check_name = ?] *)
Definition Clear (s : t) (io : option error) (checkName : string) : t * option error :=
  match io with
  | Some err => (s, Some ("delete alert state: " +:+ err))
  | None => ({| db := delete checkName (db s) |}, None)
  end.

End SQLite.

(** The [State] interface and its two implementations. *)
Inductive State : Type :=
  | InMemory (m : Memory.t)
  | InSQLite (s : SQLite.t).

Definition ShouldAlert (st : State) (io : option error) (checkName resultHash : string)
  : State * bool :=
  match st with
  | InMemory m =>
      let (m', should) := Memory.ShouldAlert m checkName resultHash in (InMemory m', should)
  | InSQLite s =>
      let (s', should) := SQLite.ShouldAlert s io checkName resultHash in (InSQLite s', should)
  end.

Definition MarkAlerted (st : State) (io : option error) (now : Z)
           (checkName resultHash : string) : State * option error :=
  match st with
  | InMemory m =>
      let (m', err) := Memory.MarkAlerted m now checkName resultHash in (InMemory m', err)
  | InSQLite s =>
      let (s', err) := SQLite.MarkAlerted s io now checkName resultHash in (InSQLite s', err)
  end.

Definition Clear (st : State) (io : option error) (checkName : string)
  : State * option error :=
  match st with
  | InMemory m => let (m', err) := Memory.Clear m checkName in (InMemory m', err)
  | InSQLite s => let (s', err) := SQLite.Clear s io checkName in (InSQLite s', err)
  end.

(** The hash recorded for a check, whichever the implementation. *)
Definition stored (st : State) (checkName : string) : option string :=
  match st with
  | InMemory m => hash <$> Memory.alerts m !! checkName
  | InSQLite s => SQLite.result_hash <$> SQLite.db s !! checkName
  end.

(** The lookup of the implementation was answered (always, in memory). *)
Definition answered (st : State) (io : option error) : Prop :=
  match st with
  | InMemory _ => True
  | InSQLite _ => io = None
  end.

End state.

(* ===================================================================== *)
(** ** package notifier                                                  *)
(* ===================================================================== *)

Module notifier.

(** The [Notifier] interface.  [Send] is what the transport answers for an
    alert: [None] for [nil]. *)
Record Notifier : Type := mkNotifier {
  Name : string;
  Send : check.Alert.t -> option error
}.

(** [MultiError] contains errors from multiple notifiers. *)
Record MultiError : Type := mkMultiError { Errors : list error }.

Fixpoint join (sep : string) (l : list string) : string :=
  match l with
  | [] => EmptyString
  | [x] => x
  | x :: rest => x +:+ sep +:+ join sep rest
  end.

Definition MultiError_Error (e : MultiError) : error :=
  "multiple notification errors: " +:+ join "; " (Errors e).

(** One entry of the call log: the notifier whose [Send] was called. *)
Definition sent : Type := (Notifier * check.Alert.t)%type.

Module Multi.

Record t : Type := mk { notifiers : list Notifier }.

Definition NewMulti (notifiers : list Notifier) : t := {| notifiers := notifiers |}.

Definition Add (m : t) (n : Notifier) : t := {| notifiers := notifiers m ++ [n] |}.

Definition Name (m : t) : string :=
  "multi[" +:+ join ", " (map notifier.Name (notifiers m)) +:+ "]".

(** The body of [for _, n := range m.notifiers], with the slice [errs] and
    the call log as loop state. *)
Fixpoint range (ns : list Notifier) (alert : check.Alert.t)
         (errs : list error) (log : list sent) : list error * list sent :=
  match ns with
  | [] => (errs, log)
  | n :: rest =>
      let log := log ++ [(n, alert)] in
      match notifier.Send n alert with
      | Some err => range rest alert (errs ++ [notifier.Name n +:+ ": " +:+ err]) log
      | None => range rest alert errs log
      end
  end.

(** [Send] sends the alert to all notifiers, collecting any errors. *)
Definition Send (m : t) (alert : check.Alert.t) : option MultiError * list sent :=
  let (errs, log) := range (notifiers m) alert [] [] in
  if (0 <? length errs)%nat then (Some {| Errors := errs |}, log) else (None, log).

(** A [*Multi] used through the [Notifier] interface. *)
Definition as_Notifier (m : t) : Notifier :=
  {| notifier.Name := Name m;
     notifier.Send := fun alert => MultiError_Error <$> fst (Send m alert) |}.

End Multi.

End notifier.

(* ===================================================================== *)
(** ** package scheduler                                                 *)
(* ===================================================================== *)

Module time.
Definition Nanosecond : Z := 1.
Definition Second : Z := 1000000000 * Nanosecond.
Definition Minute : Z := 60 * Second.
Definition Hour : Z := 60 * Minute.
End time.

Module scheduler.

(** 64-bit two's complement wrap-around of [int] and [time.Duration]. *)
Definition wrap64 (x : Z) : Z := (x + 2 ^ 63) mod 2 ^ 64 - 2 ^ 63.

(** [x << n] on [int]: a run-time panic ([None]) for a negative count;
    otherwise [x] shifted [n] times by one, with wrap-around. *)
Definition shl (x n : Z) : option Z :=
  if n <? 0 then None else Some (wrap64 (Z.shiftl x n)).

Definition maxBackoffMultiplier : Z := 32.
Definition maxBackoffDuration : Z := time.Hour.

(** The fields of [Scheduler] that an execution uses.  ([claude] is only
    passed on to the probe, [logger] only receives log lines.) *)
Record Scheduler : Type := mkScheduler {
  checks : list check.Check.t;
  notifier : notifier.Notifier;
  state : state.State
}.

Definition New (n : notifier.Notifier) (st : state.State) : Scheduler :=
  {| checks := []; notifier := n; state := st |}.

Definition Register (s : Scheduler) (c : check.Check.t) : Scheduler :=
  {| checks := checks s ++ [c]; notifier := notifier s; state := state s |}.

Definition with_state (s : Scheduler) (st : state.State) : Scheduler :=
  {| checks := checks s; notifier := notifier s; state := st |}.

(** The two counters that [runCheck] owns and [executeCheck] updates
    through pointers. *)
Record Backoff : Type := mkBackoff {
  backoffMultiplier : Z;
  consecutiveFailures : Z
}.

(** What the environment decides during one execution. *)
Record Env : Type := mkEnv {
  run : check.RunOutcome;      (* c.Run(ctx, s.claude) *)
  query_io : option error;     (* failure of the SELECT, if any *)
  exec_io : option error;      (* failure of the DELETE or INSERT, if any *)
  now_alert : Z;               (* time.Now() in NewAlertFromResult *)
  now_mark : Z                 (* time.Now() in MarkAlerted *)
}.

(** Calls on collaborators, with what they returned. *)
Inductive Call : Type :=
| CallRun (name : string) (ret : check.RunOutcome)
| CallClear (name : string) (ret : option error)
| CallShouldAlert (name hash : string) (ret : bool)
| CallSend (alert : check.Alert.t) (ret : option error)
| CallMarkAlerted (name hash : string) (ret : option error).

Record Outcome : Type := mkOutcome {
  after : Scheduler;
  backoff : Backoff;
  calls : list Call
}.

(** One execution of a check.  [None] is a run-time panic. *)
Definition executeCheck (s : Scheduler) (env : Env) (c : check.Check.t) (b : Backoff)
  : option Outcome :=
  let name := check.Check.Name c in
  match run env with
  | check.RunErr err =>
      let consecutiveFailures := wrap64 (consecutiveFailures b + 1) in
      match shl 1 consecutiveFailures with
      | None => None
      | Some v =>
          Some {| after := s;
                  backoff := {| backoffMultiplier := Z.min v maxBackoffMultiplier;
                                consecutiveFailures := consecutiveFailures |};
                  calls := [CallRun name (run env)] |}
      end
  | check.RunOk result =>
      (* Reset backoff on success *)
      let b := {| backoffMultiplier := 1; consecutiveFailures := 0 |} in
      if negb (check.CheckResult.ShouldAlert result) then
        (* Clear state when condition clears *)
        let (st, err) := state.Clear (state s) (exec_io env) name in
        Some {| after := with_state s st;
                backoff := b;
                calls := [CallRun name (run env); CallClear name err] |}
      else
        (* Check if we should send this alert (avoid duplicates) *)
        let resultHash :=
          state.Hash (check.CheckResult.Title result) (check.CheckResult.Message result) in
        let (st, should) := state.ShouldAlert (state s) (query_io env) name resultHash in
        if negb should then
          Some {| after := with_state s st;
                  backoff := b;
                  calls := [CallRun name (run env); CallShouldAlert name resultHash should] |}
        else
          (* Send alert *)
          let alert := check.NewAlertFromResult name result (now_alert env) in
          match notifier.Send (notifier s) alert with
          | Some err =>
              Some {| after := with_state s st;
                      backoff := b;
                      calls := [CallRun name (run env);
                                CallShouldAlert name resultHash should;
                                CallSend alert (Some err)] |}
          | None =>
              (* Mark as alerted *)
              let (st, err) :=
                state.MarkAlerted st (exec_io env) (now_mark env) name resultHash in
              Some {| after := with_state s st;
                      backoff := b;
                      calls := [CallRun name (run env);
                                CallShouldAlert name resultHash should;
                                CallSend alert None;
                                CallMarkAlerted name resultHash err] |}
          end
  end.

(** The wait that [runCheck] computes before the next execution. *)
Definition interval (c : check.Check.t) (b : Backoff) : Z :=
  let interval := wrap64 (check.Check.Interval c * backoffMultiplier b) in
  if maxBackoffDuration <? interval then maxBackoffDuration else interval.

Record Trace : Type := mkTrace {
  final : Scheduler;
  final_backoff : Backoff;
  waits : list Z;
  log : list Call
}.

(** The [for] loop of [runCheck].  Each element of [envs] is one round in
    which the timer fires before the context is done; the context is done
    when [envs] is exhausted. *)
Fixpoint loop (s : Scheduler) (c : check.Check.t) (b : Backoff) (envs : list Env)
         (waits : list Z) (log : list Call) : option Trace :=
  match envs with
  | [] => Some {| final := s; final_backoff := b; waits := waits; log := log |}
  | env :: rest =>
      let interval := interval c b in
      match executeCheck s env c b with
      | None => None
      | Some o => loop (after o) c (backoff o) rest (waits ++ [interval]) (log ++ calls o)
      end
  end.

(** [runCheck] runs a single check on its interval with exponential
    backoff: immediately on start ([env0]), then once per round. *)
Definition runCheck (s : Scheduler) (c : check.Check.t) (env0 : Env) (envs : list Env)
  : option Trace :=
  let b := {| backoffMultiplier := 1; consecutiveFailures := 0 |} in
  match executeCheck s env0 c b with
  | None => None
  | Some o => loop (after o) c (backoff o) envs [] (calls o)
  end.

End scheduler.

(* ===================================================================== *)
(** ** Concrete inputs used by the examples below                        *)
(* ===================================================================== *)

Module sample.

Definition site_up : check.Check.t :=
  {| check.Check.Name := "site-up"; check.Check.Interval := time.Minute |}.

(** The alerting result of the spec's scenario. *)
Definition down : check.CheckResult.t :=
  {| check.CheckResult.ShouldAlert := true;
     check.CheckResult.Title := "Site Down";
     check.CheckResult.Message := "X is not responding";
     check.CheckResult.Priority := check.PriorityHigh;
     check.CheckResult.Tags := [];
     check.CheckResult.Metadata := ∅ |}.

(** Same title and message, other priority, tags and metadata. *)
Definition down' : check.CheckResult.t :=
  {| check.CheckResult.ShouldAlert := true;
     check.CheckResult.Title := "Site Down";
     check.CheckResult.Message := "X is not responding";
     check.CheckResult.Priority := check.PriorityUrgent;
     check.CheckResult.Tags := ["web"; "prod"];
     check.CheckResult.Metadata := {["region" := "eu"]} |}.

(** The same concatenation of title and message, split elsewhere. *)
Definition down_split : check.CheckResult.t :=
  {| check.CheckResult.ShouldAlert := true;
     check.CheckResult.Title := "Site ";
     check.CheckResult.Message := "DownX is not responding";
     check.CheckResult.Priority := check.PriorityHigh;
     check.CheckResult.Tags := [];
     check.CheckResult.Metadata := ∅ |}.

Definition up : check.CheckResult.t :=
  {| check.CheckResult.ShouldAlert := false;
     check.CheckResult.Title := "";
     check.CheckResult.Message := "";
     check.CheckResult.Priority := check.PriorityLow;
     check.CheckResult.Tags := [];
     check.CheckResult.Metadata := ∅ |}.

Definition down_hash : string := "ea4f0c05c827c902".

(** A durable ledger that already holds the record of [down]. *)
Definition recorded : state.State :=
  state.InSQLite
    {| state.SQLite.db :=
         {["site-up" := {| state.SQLite.result_hash := down_hash;
                           state.SQLite.alerted_at := 0 |}]} |}.

Definition empty_memory : state.State := state.InMemory state.Memory.NewMemory.

Definition empty_sqlite : state.State := state.InSQLite {| state.SQLite.db := ∅ |}.

Definition stdout : notifier.Notifier :=
  {| notifier.Name := "stdout"; notifier.Send := fun _ => None |}.

Definition ntfy_down : notifier.Notifier :=
  {| notifier.Name := "ntfy"; notifier.Send := fun _ => Some "connection refused" |}.

Definition twilio_down : notifier.Notifier :=
  {| notifier.Name := "twilio"; notifier.Send := fun _ => Some "status 401" |}.

(** An execution in which the probe returns [r] and nothing else fails. *)
Definition returns (r : check.CheckResult.t) : scheduler.Env :=
  {| scheduler.run := check.RunOk r;
     scheduler.query_io := None;
     scheduler.exec_io := None;
     scheduler.now_alert := 100;
     scheduler.now_mark := 101 |}.

(** An execution in which the probe fails. *)
Definition fails : scheduler.Env :=
  {| scheduler.run := check.RunErr "connection reset";
     scheduler.query_io := None;
     scheduler.exec_io := None;
     scheduler.now_alert := 0;
     scheduler.now_mark := 0 |}.

(** The probe returns [r] and the ledger's [SELECT] fails. *)
Definition returns_query_fails (r : check.CheckResult.t) : scheduler.Env :=
  {| scheduler.run := check.RunOk r;
     scheduler.query_io := Some "database is locked";
     scheduler.exec_io := None;
     scheduler.now_alert := 100;
     scheduler.now_mark := 101 |}.

(** The probe returns [r] and the ledger's [DELETE] or [INSERT] fails. *)
Definition returns_exec_fails (r : check.CheckResult.t) : scheduler.Env :=
  {| scheduler.run := check.RunOk r;
     scheduler.query_io := None;
     scheduler.exec_io := Some "disk I/O error";
     scheduler.now_alert := 100;
     scheduler.now_mark := 101 |}.

Definition initial : scheduler.Backoff :=
  {| scheduler.backoffMultiplier := 1; scheduler.consecutiveFailures := 0 |}.

(** What the first execution of the scenario returns: [down] was delivered
    and recorded. *)
Definition delivered : scheduler.Outcome :=
  {| scheduler.after :=
       scheduler.New stdout
         (state.InMemory
            {| state.Memory.alerts :=
                 {["site-up" := {| state.hash := down_hash; state.alertedAt := 101 |}]} |});
     scheduler.backoff := initial;
     scheduler.calls :=
       [scheduler.CallRun "site-up" (check.RunOk down);
        scheduler.CallShouldAlert "site-up" down_hash true;
        scheduler.CallSend (check.NewAlertFromResult "site-up" down 100) None;
        scheduler.CallMarkAlerted "site-up" down_hash None] |}.

(** What an execution returns in which [down] is new and the transport
    refuses it. *)
Definition undelivered : scheduler.Outcome :=
  {| scheduler.after := scheduler.New ntfy_down empty_memory;
     scheduler.backoff := initial;
     scheduler.calls :=
       [scheduler.CallRun "site-up" (check.RunOk down);
        scheduler.CallShouldAlert "site-up" down_hash true;
        scheduler.CallSend (check.NewAlertFromResult "site-up" down 100)
                           (Some "connection refused")] |}.

End sample.


(* ===================================================================== *)
(** * Configuration, transports and probes

    The packages around the core: [internal/config], [internal/claude],
    the HTTP transports of [internal/notifier] and the probes of [checks].
    What the network, the file system and the process environment answer
    is, as before, an input of the function that asks. *)
(* ===================================================================== *)

From stdpp Require Import pretty.

Local Open Scope Z_scope.

(** Whether an entry of the call log is an execution of the probe. *)
Definition is_run (call : scheduler.Call) : bool :=
  match call with
  | scheduler.CallRun _ _ => true
  | _ => false
  end.

(** Whether an entry of the call log is a call of the notifier. *)
Definition is_send (call : scheduler.Call) : bool :=
  match call with
  | scheduler.CallSend _ _ => true
  | _ => false
  end.

(* ===================================================================== *)
(** ** strings, bytes and regexp (Go standard library)                   *)
(* ===================================================================== *)

Module strings.

Definition HasPrefix (s prefix : string) : bool := String.prefix prefix s.

(** [len(s) >= len(suffix) && s[len(s)-len(suffix):] == suffix] *)
Definition HasSuffix (s suffix : string) : bool :=
  (String.length suffix <=? String.length s)%nat
  && String.eqb
       (String.substring (String.length s - String.length suffix) (String.length suffix) s)
       suffix.

Definition TrimPrefix (s prefix : string) : string :=
  if HasPrefix s prefix
  then String.substring (String.length prefix) (String.length s - String.length prefix) s
  else s.

Definition TrimSuffix (s suffix : string) : string :=
  if HasSuffix s suffix
  then String.substring 0 (String.length s - String.length suffix) s
  else s.

(** The scan of [ReplaceAll] for a non-empty [old]: [skip] bytes of an
    occurrence that has been replaced are still to be passed over. *)
Fixpoint replace (skip : nat) (s old new : string) : string :=
  match s with
  | EmptyString => EmptyString
  | String c rest =>
      match skip with
      | S k => replace k rest old new
      | O =>
          if String.prefix old s
          then new +:+ replace (String.length old - 1) rest old new
          else String c (replace 0 rest old new)
      end
  end.

(** [strings.ReplaceAll]: the non-overlapping occurrences of [old], from
    the left, replaced by [new].  The program passes non-empty constants
    for [old]; Go's rule for an empty [old] is not modelled. *)
Definition ReplaceAll (s old new : string) : string := replace 0 s old new.

Definition Join (elems : list string) (sep : string) : string := notifier.join sep elems.

End strings.

Module Bytes.

Fixpoint HasPrefix (s prefix : list Z) : bool :=
  match prefix, s with
  | [], _ => true
  | p :: prefix', b :: s' => (b =? p) && HasPrefix s' prefix'
  | _ :: _, [] => false
  end.

Fixpoint Equal (a b : list Z) : bool :=
  match a, b with
  | [], [] => true
  | x :: a', y :: b' => (x =? y) && Equal a' b'
  | _, _ => false
  end.

(** [s[lo:hi]], for [lo <= hi <= len(s)]. *)
Definition slice (s : list Z) (lo hi : nat) : list Z := firstn (hi - lo) (skipn lo s).

End Bytes.

Module regexp.

(** A compiled pattern that matches no empty string, given by its matcher
    at a position: the text matched at the start of the input, if any. *)
Definition Regexp : Type := string -> option string.

(** The scan of [ReplaceAllStringFunc], leftmost match first; [skip] bytes
    of a match that has been replaced are still to be passed over. *)
Fixpoint replaceAll (re : Regexp) (skip : nat) (src : string) (repl : string -> string)
  : string :=
  match src with
  | EmptyString => EmptyString
  | String c rest =>
      match skip with
      | S k => replaceAll re k rest repl
      | O =>
          match re src with
          | Some m => repl m +:+ replaceAll re (String.length m - 1) rest repl
          | None => String c (replaceAll re 0 rest repl)
          end
      end
  end.

Definition ReplaceAllStringFunc (re : Regexp) (src : string) (repl : string -> string)
  : string :=
  replaceAll re 0 src repl.

End regexp.

(* ===================================================================== *)
(** ** package config                                                    *)
(* ===================================================================== *)

Module config.

Module ClaudeConfig.
Record t : Type := mk {
    Disabled : bool;
    CLIPath : string
  }.
End ClaudeConfig.

Module NotificationConfig.
Record t : Type := mk {
    Type_ : string;
    Topic : string;
    Server : string;
    AccountSID : string;
    AuthToken : string;
    From : string;
    To : string;
    APIKey : string;
    FromName : string
  }.
End NotificationConfig.

Module StateConfig.
Record t : Type := mk {
    Type_ : string;
    DBPath : string
  }.
End StateConfig.

Module Config.
Record t : Type := mk {
    Claude : ClaudeConfig.t;
    Notifications : list NotificationConfig.t;
    State : StateConfig.t
  }.
End Config.

(** [[^}]*] followed by the closing brace, at the start of [s]: the text
    before the brace. *)
Fixpoint until_brace (s : string) : option string :=
  match s with
  | EmptyString => None
  | String c rest =>
      if Ascii.eqb c "}" then Some EmptyString else String c <$> until_brace rest
  end.

(** [envVarPattern] matches [${VAR_NAME}] patterns: a dollar sign, an
    opening brace, one or more bytes other than the closing brace, and the
    closing brace.  The three delimiters are ASCII, so matching bytes is
    matching runes. *)
Definition envVarPattern : regexp.Regexp :=
  fun s =>
    match s with
    | String c1 (String c2 rest) =>
        if Ascii.eqb c1 "$" && Ascii.eqb c2 "{" then
          match until_brace rest with
          | Some (String c name) => Some ("${" +:+ String c name +:+ "}")
          | _ => None
          end
        else None
    | _ => None
    end.

(** [expandEnvVars] replaces [${VAR_NAME}] with environment variable
    values; [getenv] is [os.Getenv] in the environment of the process. *)
Definition expandEnvVars (getenv : string -> string) (s : string) : string :=
  regexp.ReplaceAllStringFunc envVarPattern s
    (fun match_ =>
       (* Extract variable name from ${VAR_NAME} *)
       let varName := strings.TrimPrefix (strings.TrimSuffix match_ "}") "${" in
       let value := getenv varName in
       if negb (String.eqb value "") then value
       else match_ (* Keep original if not found *)).

(** The body of [for i, n := range c.Notifications] in [Validate], from
    index [i] on. *)
Fixpoint range (i : nat) (ns : list NotificationConfig.t) : option error :=
  match ns with
  | [] => None
  | n :: rest =>
      let type := NotificationConfig.Type_ n in
      if String.eqb type "stdout" then
        (* No validation needed *)
        range (S i) rest
      else if String.eqb type "ntfy" then
        if String.eqb (NotificationConfig.Topic n) "" then
          Some ("notification[" +:+ pretty i +:+ "]: ntfy requires topic")
        else range (S i) rest
      else if String.eqb type "twilio" then
        if String.eqb (NotificationConfig.AccountSID n) ""
           || String.eqb (NotificationConfig.AuthToken n) ""
           || String.eqb (NotificationConfig.From n) ""
           || String.eqb (NotificationConfig.To n) "" then
          Some ("notification[" +:+ pretty i
                +:+ "]: twilio requires account_sid, auth_token, from, and to")
        else range (S i) rest
      else if String.eqb type "sendgrid" then
        if String.eqb (NotificationConfig.APIKey n) ""
           || String.eqb (NotificationConfig.From n) ""
           || String.eqb (NotificationConfig.To n) "" then
          Some ("notification[" +:+ pretty i
                +:+ "]: sendgrid requires api_key, from, and to")
        else range (S i) rest
      else
        Some ("notification[" +:+ pretty i +:+ "]: unknown type: " +:+ type)
  end.

Definition with_state_type (c : Config.t) (type : string) : Config.t :=
  {| Config.Claude := Config.Claude c;
     Config.Notifications := Config.Notifications c;
     Config.State := {| StateConfig.Type_ := type;
                        StateConfig.DBPath := StateConfig.DBPath (Config.State c) |} |}.

(** [Validate] checks the config for required fields.  The receiver is a
    pointer: the configuration is returned as the call leaves it. *)
Definition Validate (c : Config.t) : Config.t * option error :=
  let type := StateConfig.Type_ (Config.State c) in
  (* Validate state config *)
  let checked : Config.t + error :=
    if String.eqb type "memory" || String.eqb type "sqlite" then inl c
    else if String.eqb type "" then inl (with_state_type c "memory")
    else inr ("unknown state type: " +:+ type) in
  match checked with
  | inr err => (c, Some err)
  | inl c =>
      if String.eqb (StateConfig.Type_ (Config.State c)) "sqlite"
         && String.eqb (StateConfig.DBPath (Config.State c)) "" then
        (c, Some "sqlite state requires db_path")
      else
        (* Validate notification configs *)
        (c, range 0 (Config.Notifications c))
  end.

End config.

(* ===================================================================== *)
(** ** package claude: the classification of content                     *)
(* ===================================================================== *)

Module claude.

(** [min] returns the smaller of two ints. *)
Definition min (a b : Z) : Z := if a <? b then a else b.

Definition len (content : list Z) : Z := Z.of_nat (length content).

(** The signatures that [isBinary] and [detectExtension] test, in the
    order in which both test them. *)
Definition pdf (content : list Z) : bool := Bytes.HasPrefix content (bytes "%PDF").
Definition png (content : list Z) : bool := Bytes.HasPrefix content [137; 80; 78; 71].
Definition jpeg (content : list Z) : bool := Bytes.HasPrefix content [255; 216; 255].
Definition gif (content : list Z) : bool :=
  Bytes.HasPrefix content (bytes "GIF87a") || Bytes.HasPrefix content (bytes "GIF89a").
Definition webp (content : list Z) : bool :=
  (12 <=? len content)
  && Bytes.Equal (Bytes.slice content 0 4) (bytes "RIFF")
  && Bytes.Equal (Bytes.slice content 8 12) (bytes "WEBP").

(** [for i := 0; i < min(512, len(content)); i++]: whether one of the
    bytes [content[i]], from index [i] on and below [bound], is zero. *)
Fixpoint null_byte (fuel : nat) (i bound : Z) (content : list Z) : bool :=
  match fuel with
  | O => false
  | S fuel' =>
      if i <? bound then
        match content !! Z.to_nat i with
        | Some b => if b =? 0 then true else null_byte fuel' (i + 1) bound content
        | None => false (* index out of range: not reached, [bound <= len(content)] *)
        end
      else false
  end.

(** [isBinary] checks if content appears to be binary (not text). *)
Definition isBinary (content : list Z) : bool :=
  if len content <? 4 then false
  else if pdf content then true
  else if png content then true
  else if jpeg content then true
  else if gif content then true
  else if webp content then true
  else null_byte 512 0 (min 512 (len content)) content.

(** [detectExtension] returns a file extension based on content type. *)
Definition detectExtension (content : list Z) : string :=
  if len content <? 4 then ".bin"
  else if pdf content then ".pdf"
  else if png content then ".png"
  else if jpeg content then ".jpg"
  else if gif content then ".gif"
  else if webp content then ".webp"
  else ".bin".

End claude.

(* ===================================================================== *)
(** ** package notifier: the HTTP transports                             *)
(* ===================================================================== *)

Module http.

(** The body of a request: text, or form values that [url.Values.Encode]
    turns into text. *)
Inductive body : Type :=
  | Text (s : string)
  | Form (values : gmap string string).

Record Request : Type := mkRequest {
    Method : string;
    URL : string;
    Header : gmap string string;
    BasicAuth : option (string * string);
    Body : body
  }.

(** What [client.Do] returns. *)
Inductive RoundTrip : Type :=
  | Failed (err : error)
  | Responded (StatusCode : Z).

(** [http.NewRequestWithContext(ctx, method, url, body)] for a valid method
    and a context that is not nil.  How the library reads the raw [url] is
    not modelled: [parse] is what it makes of it, the error of [url.Parse]
    or the URL that the request gets (the parsed URL: escaped, query and
    fragment split off, an empty port removed from the host).  The request
    that is returned is for that URL and has no header yet. *)
Definition NewRequestWithContext (parse : string -> error + string)
           (method url : string) (body : body) : error + Request :=
  match parse url with
  | inl err => inl err
  | inr parsed =>
      inr {| Method := method;
             URL := parsed;
             Header := ∅;
             BasicAuth := None;
             Body := body |}
  end.

(** [req.Header.Set(key, value)], for a key in canonical form. *)
Definition Header_Set (req : Request) (key value : string) : Request :=
  {| Method := Method req;
     URL := URL req;
     Header := <[key := value]> (Header req);
     BasicAuth := BasicAuth req;
     Body := Body req |}.

End http.

(** What the environment decides during one [Send] or one probe:
    whether [http.NewRequestWithContext] rejects the request, and what
    [Do] returns for it. *)
Record Net : Type := mkNet {
    new_request : option error;
    do : http.RoundTrip
  }.

Module Ntfy.

Definition defaultNtfyServer : string := "https://ntfy.sh".

Record t : Type := mk {
    server : string;
    topic : string
  }.

Definition NtfyOption : Type := t -> t.

(** [WithNtfyServer] sets the ntfy server URL. *)
Definition WithNtfyServer (server : string) : NtfyOption :=
  fun n => {| server := strings.TrimSuffix server "/"; topic := topic n |}.

Definition NewNtfy (topic : string) (opts : list NtfyOption) : t :=
  fold_left (fun n opt => opt n) opts {| server := defaultNtfyServer; topic := topic |}.

Definition Name (n : t) : string := "ntfy".

Definition ntfyPriority (p : check.Priority) : string :=
  match p with
  | check.PriorityLow => "2"
  | check.PriorityNormal => "3"
  | check.PriorityHigh => "4"
  | check.PriorityUrgent => "5"
  end.

(** [Send] sends an alert via ntfy.sh.  [parse] is what
    [http.NewRequestWithContext] makes of a raw URL and [do] what the HTTP
    client returns.  Returned with the error is the request that was
    handed to the client, if one was. *)
Definition Send (n : t) (parse : string -> error + string) (do : http.RoundTrip)
           (alert : check.Alert.t) : option http.Request * option error :=
  let url := server n +:+ "/" +:+ topic n in
  match http.NewRequestWithContext parse "POST" url
                                   (http.Text (check.Alert.Message alert)) with
  | inl err => (None, Some ("create request: " +:+ err))
  | inr req =>
      let req := http.Header_Set req "Title" (check.Alert.Title alert) in
      let req :=
        http.Header_Set req "Priority" (ntfyPriority (check.Alert.Priority alert)) in
      let req :=
        if (0 <? length (check.Alert.Tags alert))%nat
        then http.Header_Set req "Tags" (strings.Join (check.Alert.Tags alert) ",")
        else req in
      match do with
      | http.Failed err => (Some req, Some ("send notification: " +:+ err))
      | http.Responded StatusCode =>
          if (StatusCode <? 200) || (300 <=? StatusCode)
          then (Some req, Some ("ntfy returned status " +:+ pretty StatusCode))
          else (Some req, None)
      end
  end.

End Ntfy.

Module Twilio.

Record t : Type := mk {
    accountSID : string;
    authToken : string;
    from : string;
    to : string
  }.

Definition NewTwilio (accountSID authToken from to : string) : t :=
  {| accountSID := accountSID; authToken := authToken; from := from; to := to |}.

Definition Name (t : t) : string := "twilio".

(** [Send] sends an SMS via Twilio.  Returned with the error is the
    request that was handed to the HTTP client, if one was. *)
Definition Send (t : t) (net : Net) (alert : check.Alert.t)
  : option http.Request * option error :=
  let apiURL :=
    "https://api.twilio.com/2010-04-01/Accounts/" +:+ accountSID t +:+ "/Messages.json" in
  (* Build message body *)
  let body := check.Alert.Title alert in
  let body :=
    if negb (String.eqb (check.Alert.Message alert) "")
    then body +:+ ": " +:+ check.Alert.Message alert
    else body in
  (* Truncate if too long for SMS *)
  let body :=
    if 1600 <? Z.of_nat (String.length body)
    then String.substring 0 1597 body +:+ "..."
    else body in
  let data : gmap string string :=
    <["Body" := body]> (<["From" := from t]> (<["To" := to t]> ∅)) in
  match new_request net with
  | Some err => (None, Some ("create request: " +:+ err))
  | None =>
      let req := {| http.Method := "POST";
                    http.URL := apiURL;
                    http.Header := {["Content-Type" := "application/x-www-form-urlencoded"]};
                    http.BasicAuth := Some (accountSID t, authToken t);
                    http.Body := http.Form data |} in
      match do net with
      | http.Failed err => (Some req, Some ("send SMS: " +:+ err))
      | http.Responded StatusCode =>
          if (StatusCode <? 200) || (300 <=? StatusCode)
          then (Some req, Some ("twilio returned status " +:+ pretty StatusCode))
          else (Some req, None)
      end
  end.

(** A [*Twilio] used through the [Notifier] interface, on a network that
    answers every request with [net]. *)
Definition as_Notifier (t : t) (net : Net) : notifier.Notifier :=
  {| notifier.Name := Name t;
     notifier.Send := fun alert => snd (Send t net alert) |}.

End Twilio.

(* ===================================================================== *)
(** ** package checks                                                    *)
(* ===================================================================== *)

Module checks.

(** The name and the interval of [CourtCaseCheck(caseNumber, pdfURL)]. *)
Definition CourtCaseCheck (caseNumber pdfURL : string) : check.Check.t :=
  {| check.Check.Name := "court-case-" +:+ strings.ReplaceAll caseNumber " " "-";
     check.Check.Interval := 5 * time.Minute |}.

(** The name and the interval of [WebsiteUpCheck(url)]. *)
Definition WebsiteUpCheck (url : string) : check.Check.t :=
  (* Create a safe name from URL *)
  let name := strings.ReplaceAll url "https://" "" in
  let name := strings.ReplaceAll name "http://" "" in
  let name := strings.ReplaceAll name "/" "-" in
  {| check.Check.Name := "website-" +:+ name;
     check.Check.Interval := 1 * time.Minute |}.

(** The [Run] function of [WebsiteUpCheck(url)]. *)
Definition WebsiteUpCheck_Run (url : string) (net : Net) : check.RunOutcome :=
  match new_request net with
  | Some err => check.RunErr err
  | None =>
      match do net with
      | http.Failed err =>
          check.RunOk
            {| check.CheckResult.ShouldAlert := true;
               check.CheckResult.Title := "Site Down";
               check.CheckResult.Message := url +:+ " is not responding: " +:+ err;
               check.CheckResult.Priority := check.PriorityHigh;
               check.CheckResult.Tags := [];
               check.CheckResult.Metadata := ∅ |}
      | http.Responded StatusCode =>
          if 500 <=? StatusCode then
            check.RunOk
              {| check.CheckResult.ShouldAlert := true;
                 check.CheckResult.Title := "Site Error";
                 check.CheckResult.Message :=
                   url +:+ " returned status " +:+ pretty StatusCode;
                 check.CheckResult.Priority := check.PriorityHigh;
                 check.CheckResult.Tags := [];
                 check.CheckResult.Metadata := ∅ |}
          else
            check.RunOk
              {| check.CheckResult.ShouldAlert := false;
                 check.CheckResult.Title := "";
                 check.CheckResult.Message := "";
                 check.CheckResult.Priority := check.PriorityLow;
                 check.CheckResult.Tags := [];
                 check.CheckResult.Metadata := ∅ |}
      end
  end.

End checks.

(* ===================================================================== *)
(** ** Concrete inputs used by the examples on these packages            *)
(* ===================================================================== *)

Module fixtures.

(** An environment in which only [NTFY_TOPIC] is set. *)
Definition getenv (name : string) : string :=
  if String.eqb name "NTFY_TOPIC" then "alerts" else "".

Definition stdout : config.NotificationConfig.t :=
  {| config.NotificationConfig.Type_ := "stdout";
     config.NotificationConfig.Topic := "";
     config.NotificationConfig.Server := "";
     config.NotificationConfig.AccountSID := "";
     config.NotificationConfig.AuthToken := "";
     config.NotificationConfig.From := "";
     config.NotificationConfig.To := "";
     config.NotificationConfig.APIKey := "";
     config.NotificationConfig.FromName := "" |}.

Definition ntfy (topic : string) : config.NotificationConfig.t :=
  {| config.NotificationConfig.Type_ := "ntfy";
     config.NotificationConfig.Topic := topic;
     config.NotificationConfig.Server := "";
     config.NotificationConfig.AccountSID := "";
     config.NotificationConfig.AuthToken := "";
     config.NotificationConfig.From := "";
     config.NotificationConfig.To := "";
     config.NotificationConfig.APIKey := "";
     config.NotificationConfig.FromName := "" |}.

(** A configuration that names no state type. *)
Definition configuration (notifications : list config.NotificationConfig.t)
  : config.Config.t :=
  {| config.Config.Claude := {| config.ClaudeConfig.Disabled := true;
                                config.ClaudeConfig.CLIPath := "" |};
     config.Config.Notifications := notifications;
     config.Config.State := {| config.StateConfig.Type_ := "";
                               config.StateConfig.DBPath := "" |} |}.

Definition sms : Twilio.t := Twilio.NewTwilio "AC0" "secret" "+15550100" "+15550101".

(** The request is accepted and answered with the given status. *)
Definition answered (status : Z) : Net :=
  {| new_request := None; do := http.Responded status |}.

Definition site_down : check.Alert.t := check.NewAlertFromResult "site-up" sample.down 100.

(** What the library makes of the URLs of the examples, which hold
    nothing to escape or to split off: the URL itself. *)
Definition plain_url (url : string) : error + string := inr url.

(** An execution of the website probe that is answered with status 404. *)
Definition not_found : scheduler.Env :=
  {| scheduler.run := checks.WebsiteUpCheck_Run "https://example.com/health" (answered 404);
     scheduler.query_io := None;
     scheduler.exec_io := None;
     scheduler.now_alert := 100;
     scheduler.now_mark := 101 |}.

End fixtures.
(* ===================================================================== *)
(** * Properties                                                         *)
(* ===================================================================== *)

(** ** The condition hash *)

Lemma bytes_app (s1 s2 : string) : bytes (s1 +:+ s2) = bytes s1 ++ bytes s2.
Proof.
  induction s1 as [|a s1 IH]; simpl; [reflexivity|].
  now rewrite IH.
Qed.

Example sha256_abc :
  hex.EncodeToString (sha256.Sum256 (bytes "abc"))
  = "ba7816bf8f01cfea414140de5dae2223b00361a396177a9cb410ff61f20015ad"%string.
Proof. vm_compute. reflexivity. Qed.

Example sha256_empty :
  hex.EncodeToString (sha256.Sum256 [])
  = "e3b0c44298fc1c149afbf4c8996fb92427ae41e4649b934ca495991b7852b855"%string.
Proof. vm_compute. reflexivity. Qed.

Example sha256_four_blocks :
  hex.EncodeToString (sha256.Sum256 (repeat 97 200))
  = "c2a908d98f5df987ade41b5fce213067efbcc21ef2240212a41e54b5e7c28ae5"%string.
Proof. vm_compute. reflexivity. Qed.

Example Hash_site_down :
  state.Hash "Site Down" "X is not responding" = sample.down_hash.
Proof. vm_compute. reflexivity. Qed.

(** [Hash] is the first 16 hex characters of the SHA-256 digest of the
    concatenation of title and message. *)
Lemma Hash_concat (title message : string) :
  state.Hash title message
  = String.substring 0 16 (hex.EncodeToString (sha256.Sum256 (bytes (title +:+ message)))).
Proof.
  unfold state.Hash, sha256.Sum, sha256.Write, sha256.New.
  now rewrite bytes_app.
Qed.

(** ** The ledger *)

Section Ledger.

Implicit Types (st : state.State) (io : option error) (name h : string).

Lemma Memory_ShouldAlert_spec (m : state.Memory.t) name h :
  state.Memory.ShouldAlert m name h
  = (m, bool_decide (state.hash <$> state.Memory.alerts m !! name ≠ Some h)).
Proof.
  unfold state.Memory.ShouldAlert.
  destruct (state.Memory.alerts m !! name) as [r|]; simpl; [|reflexivity].
  f_equal. apply bool_decide_ext. split; congruence.
Qed.

Lemma SQLite_ShouldAlert_spec (s : state.SQLite.t) io name h :
  state.SQLite.ShouldAlert s io name h
  = (s, match io with
        | Some _ => true
        | None => bool_decide (state.SQLite.result_hash <$> state.SQLite.db s !! name ≠ Some h)
        end).
Proof.
  unfold state.SQLite.ShouldAlert, state.SQLite.QueryRow_Scan.
  destruct io as [e|]; [reflexivity|].
  destruct (state.SQLite.db s !! name) as [r|]; simpl; [|reflexivity].
  f_equal. apply bool_decide_ext. split; congruence.
Qed.

(** [ShouldAlert] hands the ledger back unchanged. *)
Lemma ShouldAlert_fst st io name h : fst (state.ShouldAlert st io name h) = st.
Proof.
  destruct st as [m|s]; simpl.
  - now rewrite Memory_ShouldAlert_spec.
  - now rewrite SQLite_ShouldAlert_spec.
Qed.

(** What [ShouldAlert] answers, for both implementations. *)
Lemma ShouldAlert_snd st io name h :
  snd (state.ShouldAlert st io name h) = true
  <-> state.stored st name ≠ Some h \/ ~ state.answered st io.
Proof.
  destruct st as [m|s]; simpl.
  - rewrite Memory_ShouldAlert_spec; simpl. rewrite bool_decide_eq_true. tauto.
  - rewrite SQLite_ShouldAlert_spec; simpl.
    destruct io as [e|].
    + split; [right; discriminate | reflexivity].
    + rewrite bool_decide_eq_true. tauto.
Qed.

Lemma ShouldAlert_answered st io name h :
  state.answered st io ->
  snd (state.ShouldAlert st io name h) = bool_decide (state.stored st name ≠ Some h).
Proof.
  intros Ha. destruct st as [m|s]; simpl in *.
  - now rewrite Memory_ShouldAlert_spec.
  - subst io. now rewrite SQLite_ShouldAlert_spec.
Qed.

Lemma stored_cases (o : option string) h :
  o ≠ Some h <-> o = None \/ exists h', o = Some h' /\ h' ≠ h.
Proof.
  destruct o as [h'|]; split.
  - intros H. right. exists h'. split; congruence.
  - intros [H|(h'' & H1 & H2)]; congruence.
  - now left.
  - discriminate.
Qed.

(** The three ways in which [ShouldAlert] answers [true]. *)
Lemma ShouldAlert_true_cases st io name h :
  snd (state.ShouldAlert st io name h) = true
  <-> state.stored st name = None
      \/ (exists h', state.stored st name = Some h' /\ h' ≠ h)
      \/ (exists s e, st = state.InSQLite s /\ io = Some e).
Proof.
  rewrite ShouldAlert_snd, stored_cases.
  destruct st as [m|s]; simpl.
  - split; [tauto | intros [H|[H|(s & e & H & _)]]; [tauto..|discriminate]].
  - split.
    + intros [H|H]; [tauto|]. right. right. exists s.
      destruct io as [e|]; [now exists e | now destruct H].
    + intros [H|[H|(s' & e & _ & ->)]]; [tauto..|]. right. discriminate.
Qed.

Lemma MarkAlerted_ok st io now name h st' :
  state.MarkAlerted st io now name h = (st', None) ->
  state.stored st' name = Some h.
Proof.
  destruct st as [m|s]; simpl.
  - intros [= <-]. simpl. now rewrite lookup_insert_eq.
  - unfold state.SQLite.MarkAlerted. destruct io as [e|]; [discriminate|].
    intros [= <-]. simpl. now rewrite lookup_insert_eq.
Qed.

Lemma Clear_ok st io name st' :
  state.Clear st io name = (st', None) -> state.stored st' name = None.
Proof.
  destruct st as [m|s]; simpl.
  - intros [= <-]. simpl. now rewrite lookup_delete_eq.
  - unfold state.SQLite.Clear. destruct io as [e|]; [discriminate|].
    intros [= <-]. simpl. now rewrite lookup_delete_eq.
Qed.

Lemma Clear_other st io name st' err other :
  state.Clear st io name = (st', err) -> other ≠ name ->
  state.stored st' other = state.stored st other.
Proof.
  intros H Hne. destruct st as [m|s]; simpl in H.
  - injection H as <- _. simpl. now rewrite lookup_delete_ne.
  - unfold state.SQLite.Clear in H. destruct io as [e|]; injection H as <- _; [reflexivity|].
    simpl. now rewrite lookup_delete_ne.
Qed.

Lemma Clear_failed st io name st' e :
  state.Clear st io name = (st', Some e) -> st' = st.
Proof.
  destruct st as [m|s]; simpl; [discriminate|].
  unfold state.SQLite.Clear. destruct io; [|discriminate].
  now intros [= <- _].
Qed.

End Ledger.

(** C5, as stated, fails on the durable ledger: with the record of the same
    hash in the table and a failing [SELECT], [ShouldAlert] answers [true]
    although a record exists and its hash does not differ. *)
Lemma C5_ShouldAlert_iff_counterexample :
  ~ (snd (state.ShouldAlert sample.recorded (Some "database is locked")
                            "site-up" sample.down_hash) = true
     <-> (state.stored sample.recorded "site-up" = None
          \/ exists h', state.stored sample.recorded "site-up" = Some h'
                        /\ h' ≠ sample.down_hash)).
Proof.
  intros [H _]. specialize (H eq_refl).
  destruct H as [H | (h' & H1 & H2)].
  - vm_compute in H. discriminate.
  - vm_compute in H1. injection H1 as <-. now apply H2.
Qed.

(** C5, amended: for both implementations [ShouldAlert] leaves the ledger
    unchanged; it answers [true] if and only if there is no record for the
    check, or the recorded hash differs, or (durable ledger only) the lookup
    itself failed.  Whenever the lookup is answered, which is always the case
    in memory, it answers [true] exactly when there is no record or the
    recorded hash differs. *)
Theorem C5_ShouldAlert_reads_and_fails_open
        (st : state.State) (io : option error) (name h : string) :
  fst (state.ShouldAlert st io name h) = st
  /\ (snd (state.ShouldAlert st io name h) = true
      <-> state.stored st name = None
          \/ (exists h', state.stored st name = Some h' /\ h' ≠ h)
          \/ (exists s e, st = state.InSQLite s /\ io = Some e))
  /\ (state.answered st io ->
      (snd (state.ShouldAlert st io name h) = true
       <-> state.stored st name = None
           \/ (exists h', state.stored st name = Some h' /\ h' ≠ h))).
Proof.
  split; [apply ShouldAlert_fst|]. split.
  - apply ShouldAlert_true_cases.
  - intros Ha. rewrite (ShouldAlert_answered _ _ _ _ Ha), bool_decide_eq_true.
    apply stored_cases.
Qed.

Lemma C5_ShouldAlert_witness :
  snd (state.ShouldAlert sample.recorded None "site-up" "0123456789abcdef") = true
  <-> state.stored sample.recorded "site-up" = None
      \/ (exists h', state.stored sample.recorded "site-up" = Some h'
                     /\ h' ≠ "0123456789abcdef").
Proof.
  apply (proj2 (proj2 (C5_ShouldAlert_reads_and_fails_open
                         sample.recorded None "site-up" "0123456789abcdef"))).
  reflexivity.
Defined.




(** ** The fan-out notifier *)

Section FanOut.

Variable alert : check.Alert.t.

(** The entry that [Send] appends to [errs] for a notifier, if any. *)
Local Abbreviation entry :=
  (fun n : notifier.Notifier =>
     (fun err => notifier.Name n +:+ ": " +:+ err) <$> notifier.Send n alert).

Lemma range_spec (ns : list notifier.Notifier) (errs : list error) (log : list notifier.sent) :
  notifier.Multi.range ns alert errs log
  = (errs ++ omap entry ns, log ++ map (fun n => (n, alert)) ns).
Proof.
  revert errs log. induction ns as [|n ns IH]; intros errs log; simpl.
  - now rewrite !app_nil_r.
  - destruct (notifier.Send n alert) as [e|]; simpl; rewrite IH, <- !app_assoc; reflexivity.
Qed.

Lemma omap_entry_nil (ns : list notifier.Notifier) :
  omap entry ns = [] <-> Forall (fun n => notifier.Send n alert = None) ns.
Proof.
  induction ns as [|n ns IH]; simpl.
  - split; [constructor | reflexivity].
  - destruct (notifier.Send n alert) as [e|] eqn:He; simpl.
    + split; [discriminate|]. intros H. inversion H; subst. congruence.
    + rewrite IH. split; [now constructor | intros H; now inversion H].
Qed.

Lemma omap_entry_length (ns : list notifier.Notifier) :
  length (omap entry ns)
  = length (filter (fun n => is_Some (notifier.Send n alert)) ns).
Proof.
  induction ns as [|n ns IH]; simpl; [reflexivity|].
  rewrite filter_cons.
  destruct (notifier.Send n alert) as [e|] eqn:He; simpl.
  - f_equal. exact IH.
  - exact IH.
Qed.

(** C9: [Multi.Send] calls [Send] on every underlying notifier exactly once,
    in registration order and with the alert it was given, whatever the
    earlier ones returned; it returns [nil] exactly when all of them do, and
    otherwise a [MultiError] with one entry per failed notifier, in order. *)
Theorem C9_Multi_Send_attempts_all (m : notifier.Multi.t) :
  let '(res, log) := notifier.Multi.Send m alert in
  map fst log = notifier.Multi.notifiers m
  /\ Forall (fun call => snd call = alert) log
  /\ (res = None
      <-> Forall (fun n => notifier.Send n alert = None) (notifier.Multi.notifiers m))
  /\ (res <> None ->
      exists e, res = Some e
        /\ notifier.Errors e = omap entry (notifier.Multi.notifiers m)
        /\ length (notifier.Errors e)
           = length (filter (fun n => is_Some (notifier.Send n alert))
                            (notifier.Multi.notifiers m))).
Proof.
  unfold notifier.Multi.Send. rewrite range_spec. simpl.
  set (ns := notifier.Multi.notifiers m).
  pose proof (omap_entry_nil ns) as Hnil.
  pose proof (omap_entry_length ns) as Hlen.
  assert (Hlog : map fst (map (fun n => (n, alert)) ns) = ns
                 /\ Forall (fun call : notifier.sent => snd call = alert)
                           (map (fun n => (n, alert)) ns)).
  { split.
    - rewrite map_map. simpl. apply map_id.
    - apply Forall_map. now apply Forall_true. }
  destruct Hlog as [Hl1 Hl2].
  destruct (omap entry ns) as [|e es] eqn:Ho; simpl.
  - repeat split; auto.
    + intros _. now apply Hnil.
    + intros H. now destruct H.
  - repeat split; auto.
    + discriminate.
    + intros H. apply Hnil in H. discriminate.
    + intros _. eexists. split; [reflexivity|]. simpl. split; [symmetry; exact Ho | exact Hlen].
Qed.

End FanOut.

(** The first transport fails, the second succeeds, the third fails: all
    three are called and the two failures are reported. *)
Example Multi_Send_two_of_three_fail :
  let alert := check.NewAlertFromResult "site-up" sample.down 100 in
  let m := notifier.Multi.NewMulti [sample.ntfy_down; sample.stdout; sample.twilio_down] in
  fst (notifier.Multi.Send m alert)
  = Some {| notifier.Errors := ["ntfy: connection refused"; "twilio: status 401"] |}
  /\ map (fun call => notifier.Name (fst call)) (snd (notifier.Multi.Send m alert))
     = ["ntfy"; "stdout"; "twilio"]
  /\ notifier.Send (notifier.Multi.as_Notifier m) alert
     = Some "multiple notification errors: ntfy: connection refused; twilio: status 401".
Proof. repeat split. Qed.

(** ** One execution of a check *)

Section Execution.

Import scheduler.

Implicit Types (s : Scheduler) (env : Env) (c : check.Check.t) (b : Backoff).

Lemma with_state_same s : with_state s (state s) = s.
Proof. now destruct s. Qed.

(** Case analysis on the path taken by [executeCheck]. *)
Ltac exec_cases H :=
  unfold executeCheck in H;
  repeat match type of H with
         | context [match ?x with _ => _ end] => destruct x eqn:?
         end;
  simplify_eq/=.

Lemma wrap64_small (x : Z) : - 2 ^ 63 <= x < 2 ^ 63 -> wrap64 x = x.
Proof.
  intros H. unfold wrap64.
  rewrite Z.mod_small by lia. lia.
Qed.

(** The probe failed: nothing but the two counters changes. *)
Lemma executeCheck_error s env c b err :
  run env = check.RunErr err ->
  0 <= consecutiveFailures b < 2 ^ 63 - 1 ->
  executeCheck s env c b
  = Some {| after := s;
            backoff :=
              {| backoffMultiplier :=
                   Z.min (wrap64 (2 ^ (consecutiveFailures b + 1))) maxBackoffMultiplier;
                 consecutiveFailures := consecutiveFailures b + 1 |};
            calls := [CallRun (check.Check.Name c) (check.RunErr err)] |}.
Proof.
  intros Hrun Hcf. unfold executeCheck. rewrite Hrun.
  rewrite (wrap64_small (consecutiveFailures b + 1)) by lia.
  unfold shl. destruct (Z.ltb_spec (consecutiveFailures b + 1) 0) as [?|_]; [lia|].
  rewrite Z.shiftl_1_l. reflexivity.
Qed.

(** The probe succeeded and asks for no alert. *)
Lemma executeCheck_clear s env c b result :
  run env = check.RunOk result ->
  check.CheckResult.ShouldAlert result = false ->
  executeCheck s env c b
  = Some {| after := with_state s (fst (state.Clear (state s) (exec_io env) (check.Check.Name c)));
            backoff := {| backoffMultiplier := 1; consecutiveFailures := 0 |};
            calls := [CallRun (check.Check.Name c) (check.RunOk result);
                      CallClear (check.Check.Name c)
                        (snd (state.Clear (state s) (exec_io env) (check.Check.Name c)))] |}.
Proof.
  intros Hrun Hno. unfold executeCheck. rewrite Hrun, Hno. simpl.
  now destruct (state.Clear _ _ _).
Qed.

(** The probe asks for an alert that the ledger reports as a duplicate. *)
Lemma executeCheck_duplicate s env c b result :
  run env = check.RunOk result ->
  check.CheckResult.ShouldAlert result = true ->
  snd (state.ShouldAlert (state s) (query_io env) (check.Check.Name c)
         (state.Hash (check.CheckResult.Title result) (check.CheckResult.Message result)))
  = false ->
  executeCheck s env c b
  = Some {| after := s;
            backoff := {| backoffMultiplier := 1; consecutiveFailures := 0 |};
            calls := [CallRun (check.Check.Name c) (check.RunOk result);
                      CallShouldAlert (check.Check.Name c)
                        (state.Hash (check.CheckResult.Title result)
                                    (check.CheckResult.Message result)) false] |}.
Proof.
  intros Hrun Hyes Hdup. unfold executeCheck. rewrite Hrun, Hyes. simpl.
  pose proof (ShouldAlert_fst (state s) (query_io env) (check.Check.Name c)
                (state.Hash (check.CheckResult.Title result)
                            (check.CheckResult.Message result))) as Hfst.
  destruct (state.ShouldAlert _ _ _ _) as [st should]. simpl in *. subst.
  simpl. now rewrite with_state_same.
Qed.

(** The probe asks for an alert that the ledger lets through. *)
Lemma executeCheck_alert s env c b result :
  run env = check.RunOk result ->
  check.CheckResult.ShouldAlert result = true ->
  let name := check.Check.Name c in
  let h := state.Hash (check.CheckResult.Title result) (check.CheckResult.Message result) in
  let alert := check.NewAlertFromResult name result (now_alert env) in
  snd (state.ShouldAlert (state s) (query_io env) name h) = true ->
  executeCheck s env c b
  = match notifier.Send (notifier s) alert with
    | Some err =>
        Some {| after := s;
                backoff := {| backoffMultiplier := 1; consecutiveFailures := 0 |};
                calls := [CallRun name (check.RunOk result);
                          CallShouldAlert name h true;
                          CallSend alert (Some err)] |}
    | None =>
        let marked := state.MarkAlerted (state s) (exec_io env) (now_mark env) name h in
        Some {| after := with_state s (fst marked);
                backoff := {| backoffMultiplier := 1; consecutiveFailures := 0 |};
                calls := [CallRun name (check.RunOk result);
                          CallShouldAlert name h true;
                          CallSend alert None;
                          CallMarkAlerted name h (snd marked)] |}
    end.
Proof.
  intros Hrun Hyes name h alert Hnew. unfold executeCheck. rewrite Hrun, Hyes. simpl.
  fold name h.
  pose proof (ShouldAlert_fst (state s) (query_io env) name h) as Hfst.
  destruct (state.ShouldAlert _ _ _ _) as [st should]. simpl in *. subst.
  simpl. fold alert. rewrite with_state_same.
  destruct (notifier.Send (notifier s) alert); [reflexivity|].
  now destruct (state.MarkAlerted _ _ _ _ _).
Qed.

(** Whatever happens, a successful probe resets the counters. *)
Lemma executeCheck_success_resets s env c b result o :
  run env = check.RunOk result ->
  executeCheck s env c b = Some o ->
  backoff o = {| backoffMultiplier := 1; consecutiveFailures := 0 |}.
Proof. intros Hrun H. exec_cases H; reflexivity. Qed.

(** A successful probe never panics. *)
Lemma executeCheck_success_returns s env c b result :
  run env = check.RunOk result -> exists o, executeCheck s env c b = Some o.
Proof.
  intros Hrun. unfold executeCheck. rewrite Hrun.
  repeat match goal with
         | |- context [match ?x with _ => _ end] => destruct x
         end; eauto.
Qed.

(** C1, as stated, fails on the durable ledger: the ledger holds the record
    of this very condition, the [SELECT] fails, and the alert is handed to
    the notifier all the same. *)
Lemma C1_Send_with_same_hash_recorded_counterexample :
  exists o alert ret,
    executeCheck (New sample.stdout sample.recorded)
                 (sample.returns_query_fails sample.down)
                 sample.site_up sample.initial = Some o
    /\ In (CallSend alert ret) (calls o)
    /\ state.stored sample.recorded "site-up"
       = Some (state.Hash (check.Alert.Title alert) (check.Alert.Message alert)).
Proof.
  eexists. exists (check.NewAlertFromResult "site-up" sample.down 100), None.
  split; [vm_compute; reflexivity|].
  split; [simpl; tauto | vm_compute; reflexivity].
Qed.

(** When [Send] appears in the call log, the probe returned a result, the
    alert was built from it, [ShouldAlert] answered [true], and the log up to
    the send holds no write to the ledger. *)
Lemma send_path s env c b o alert ret :
  executeCheck s env c b = Some o ->
  In (CallSend alert ret) (calls o) ->
  let name := check.Check.Name c in
  let h := state.Hash (check.Alert.Title alert) (check.Alert.Message alert) in
  exists result rest,
    run env = check.RunOk result
    /\ alert = check.NewAlertFromResult name result (now_alert env)
    /\ calls o = CallRun name (check.RunOk result)
                 :: CallShouldAlert name h true
                 :: CallSend alert ret :: rest
    /\ snd (state.ShouldAlert (state s) (query_io env) name h) = true.
Proof.
  intros Hexec Hin name h.
  exec_cases Hexec;
    repeat (destruct Hin as [Hin|Hin]; try discriminate Hin); try contradiction;
    injection Hin as <- <-;
    match goal with
    | Hn : negb ?should = false |- _ => apply negb_false_iff in Hn; subst
    end;
    match goal with
    | Hs : state.ShouldAlert _ _ _ _ = _ |- _ =>
        eexists; eexists; split; [reflexivity|]; split; [reflexivity|];
        split; [reflexivity|]; subst name h; simpl; now rewrite Hs
    end.
Qed.

(** C1, amended: [Send] is invoked only after [ShouldAlert] has answered
    [true] on the ledger as it is at that moment (nothing is written before
    the send), that is, only if no record exists for the check, or the
    recorded hash differs from the hash of the alert, or the lookup of the
    durable ledger failed.  Whenever the lookup is answered, which is always
    the case in memory, [Send] is invoked only if no record exists for the
    check or the recorded hash differs. *)
Theorem C1_Send_only_if_ledger_permits s env c b o alert ret :
  executeCheck s env c b = Some o ->
  In (CallSend alert ret) (calls o) ->
  let name := check.Check.Name c in
  let h := state.Hash (check.Alert.Title alert) (check.Alert.Message alert) in
  (exists result rest,
      run env = check.RunOk result
      /\ alert = check.NewAlertFromResult name result (now_alert env)
      /\ calls o = CallRun name (check.RunOk result)
                   :: CallShouldAlert name h true
                   :: CallSend alert ret :: rest)
  /\ snd (state.ShouldAlert (state s) (query_io env) name h) = true
  /\ (state.stored (state s) name = None
      \/ (exists h', state.stored (state s) name = Some h' /\ h' ≠ h)
      \/ (exists sq e, state s = state.InSQLite sq /\ query_io env = Some e))
  /\ (state.answered (state s) (query_io env) ->
      state.stored (state s) name = None
      \/ (exists h', state.stored (state s) name = Some h' /\ h' ≠ h)).
Proof.
  intros Hexec Hin name h.
  destruct (send_path s env c b o alert ret Hexec Hin)
    as (result & rest & Hrun & Halert & Hcalls & Hshould).
  split; [now exists result, rest|]. split; [exact Hshould|].
  split; [now apply ShouldAlert_true_cases|].
  intros Ha. apply stored_cases.
  rewrite (ShouldAlert_answered _ _ _ _ Ha) in Hshould.
  now apply bool_decide_eq_true in Hshould.
Qed.

Lemma C1_Send_only_if_ledger_permits_witness :
  let h := state.Hash "Site Down" "X is not responding" in
  state.stored sample.empty_memory "site-up" = None
  \/ (exists h', state.stored sample.empty_memory "site-up" = Some h' /\ h' ≠ h)
  \/ (exists sq e, sample.empty_memory = state.InSQLite sq /\ @None error = Some e).
Proof.
  refine (proj1 (proj2 (proj2 (C1_Send_only_if_ledger_permits
                          (New sample.stdout sample.empty_memory)
                          (sample.returns sample.down) sample.site_up sample.initial
                          _ (check.NewAlertFromResult "site-up" sample.down 100) None _ _)))).
  - reflexivity.
  - simpl. tauto.
Defined.

(** A recorded alert: the send succeeded and so did the write. *)
Lemma marked_recorded s env c b o name h :
  executeCheck s env c b = Some o ->
  In (CallMarkAlerted name h None) (calls o) ->
  name = check.Check.Name c
  /\ state.stored (state (after o)) name = Some h
  /\ exists alert, In (CallSend alert None) (calls o).
Proof.
  intros Hexec Hin.
  exec_cases Hexec;
    repeat (destruct Hin as [Hin|Hin]; try discriminate Hin); try contradiction.
  injection Hin as <- <- ->.
  split; [reflexivity|]. split; [|eexists; simpl; eauto].
  match goal with
  | Hs : state.ShouldAlert _ _ _ _ = _, Hm : state.MarkAlerted _ _ _ _ _ = _ |- _ =>
      apply MarkAlerted_ok in Hm; exact Hm
  end.
Qed.

(** An alert whose hash is the recorded one is suppressed, provided the
    ledger answers the lookup. *)
Lemma recorded_suppressed s env c b result :
  run env = check.RunOk result ->
  check.CheckResult.ShouldAlert result = true ->
  state.stored (state s) (check.Check.Name c)
  = Some (state.Hash (check.CheckResult.Title result) (check.CheckResult.Message result)) ->
  state.answered (state s) (query_io env) ->
  executeCheck s env c b
  = Some {| after := s;
            backoff := {| backoffMultiplier := 1; consecutiveFailures := 0 |};
            calls := [CallRun (check.Check.Name c) (check.RunOk result);
                      CallShouldAlert (check.Check.Name c)
                        (state.Hash (check.CheckResult.Title result)
                                    (check.CheckResult.Message result)) false] |}.
Proof.
  intros Hrun Hyes Hst Ha. apply executeCheck_duplicate; auto.
  rewrite (ShouldAlert_answered _ _ _ _ Ha).
  apply bool_decide_eq_false. intros Hne. now apply Hne.
Qed.

(** An alert that the ledger lets through is handed to the notifier. *)
Lemma permitted_sent s env c b result :
  run env = check.RunOk result ->
  check.CheckResult.ShouldAlert result = true ->
  snd (state.ShouldAlert (state s) (query_io env) (check.Check.Name c)
         (state.Hash (check.CheckResult.Title result) (check.CheckResult.Message result)))
  = true ->
  exists o ret,
    executeCheck s env c b = Some o
    /\ In (CallSend (check.NewAlertFromResult (check.Check.Name c) result (now_alert env)) ret)
          (calls o).
Proof.
  intros Hrun Hyes Hnew.
  rewrite (executeCheck_alert s env c b result Hrun Hyes Hnew).
  destruct (notifier.Send _ _) as [e|]; eexists _, _; (split; [reflexivity|]); simpl; eauto.
Qed.

(** C2, as stated, fails on the durable ledger: the first result is
    delivered and recorded, the second has the same title and message, the
    [SELECT] fails, and the second is sent too. *)
Lemma C2_second_not_suppressed_counterexample :
  exists o1 o2 alert ret,
    check.CheckResult.Title sample.down = check.CheckResult.Title sample.down'
    /\ check.CheckResult.Message sample.down = check.CheckResult.Message sample.down'
    /\ executeCheck (New sample.stdout sample.empty_sqlite)
                    (sample.returns sample.down) sample.site_up sample.initial = Some o1
    /\ In (CallMarkAlerted "site-up" sample.down_hash None) (calls o1)
    /\ executeCheck (after o1) (sample.returns_query_fails sample.down')
                    sample.site_up (backoff o1) = Some o2
    /\ In (CallSend alert ret) (calls o2).
Proof.
  eexists _, _, (check.NewAlertFromResult "site-up" sample.down' 100), None.
  split; [reflexivity|]. split; [reflexivity|].
  split; [vm_compute; reflexivity|].
  split; [simpl; tauto|].
  split; [vm_compute; reflexivity|].
  simpl. tauto.
Qed.

(** C2, amended: the condition hash is the first 16 hex characters of the
    SHA-256 digest of title followed by message; two results with the same
    title and message have the same hash whatever their other fields; and
    when the second follows a first one that was delivered and recorded, it
    is suppressed (no notifier call, ledger unchanged) provided the ledger
    answers the lookup, which the in-memory ledger always does. *)
Theorem C2_same_title_and_message_same_condition
        (r1 r2 : check.CheckResult.t) s env1 env2 c b1 b2 o1 :
  check.CheckResult.Title r1 = check.CheckResult.Title r2 ->
  check.CheckResult.Message r1 = check.CheckResult.Message r2 ->
  let h1 := state.Hash (check.CheckResult.Title r1) (check.CheckResult.Message r1) in
  let h2 := state.Hash (check.CheckResult.Title r2) (check.CheckResult.Message r2) in
  h1 = String.substring 0 16
         (hex.EncodeToString
            (sha256.Sum256 (bytes (check.CheckResult.Title r1 +:+ check.CheckResult.Message r1))))
  /\ h1 = h2
  /\ (run env1 = check.RunOk r1 ->
      executeCheck s env1 c b1 = Some o1 ->
      In (CallMarkAlerted (check.Check.Name c) h1 None) (calls o1) ->
      run env2 = check.RunOk r2 ->
      check.CheckResult.ShouldAlert r2 = true ->
      state.answered (state (after o1)) (query_io env2) ->
      executeCheck (after o1) env2 c b2
      = Some {| after := after o1;
                backoff := {| backoffMultiplier := 1; consecutiveFailures := 0 |};
                calls := [CallRun (check.Check.Name c) (check.RunOk r2);
                          CallShouldAlert (check.Check.Name c) h2 false] |}).
Proof.
  intros Ht Hm h1 h2.
  assert (Hh : h1 = h2) by (subst h1 h2; now rewrite Ht, Hm).
  split; [apply Hash_concat|]. split; [exact Hh|].
  intros Hrun1 Hexec1 Hin Hrun2 Hyes Ha.
  apply recorded_suppressed; auto.
  fold h2. rewrite <- Hh.
  now destruct (marked_recorded _ _ _ _ _ _ _ Hexec1 Hin) as (_ & Hst & _).
Qed.

Lemma C2_same_title_and_message_witness :
  executeCheck (after sample.delivered) (sample.returns sample.down')
               sample.site_up sample.initial
  = Some {| after := after sample.delivered;
            backoff := {| backoffMultiplier := 1; consecutiveFailures := 0 |};
            calls := [CallRun "site-up" (check.RunOk sample.down');
                      CallShouldAlert "site-up"
                        (state.Hash "Site Down" "X is not responding") false] |}.
Proof.
  refine (proj2 (proj2 (C2_same_title_and_message_same_condition
                          sample.down sample.down'
                          (New sample.stdout sample.empty_memory)
                          (sample.returns sample.down) (sample.returns sample.down')
                          sample.site_up sample.initial sample.initial
                          sample.delivered _ _)) _ _ _ _ _ _).
  - reflexivity.
  - reflexivity.
  - reflexivity.
  - vm_compute. reflexivity.
  - vm_compute. tauto.
  - reflexivity.
  - reflexivity.
  - exact I.
Defined.

(** What an execution in which the send failed returns. *)
Lemma send_failed_outcome s env c b o alert err :
  executeCheck s env c b = Some o ->
  In (CallSend alert (Some err)) (calls o) ->
  let name := check.Check.Name c in
  let h := state.Hash (check.Alert.Title alert) (check.Alert.Message alert) in
  exists result,
    run env = check.RunOk result
    /\ check.CheckResult.ShouldAlert result = true
    /\ alert = check.NewAlertFromResult name result (now_alert env)
    /\ snd (state.ShouldAlert (state s) (query_io env) name h) = true
    /\ o = {| after := s;
              backoff := {| backoffMultiplier := 1; consecutiveFailures := 0 |};
              calls := [CallRun name (check.RunOk result);
                        CallShouldAlert name h true;
                        CallSend alert (Some err)] |}.
Proof.
  intros Hexec Hin name h.
  exec_cases Hexec;
    repeat (destruct Hin as [Hin|Hin]; try discriminate Hin); try contradiction.
  injection Hin as <- <-.
  repeat match goal with
         | Hn : negb _ = false |- _ => apply negb_false_iff in Hn
         end.
  subst.
  match goal with
  | Hs : state.ShouldAlert ?st ?io ?n ?hh = _ |- _ =>
      pose proof (ShouldAlert_fst st io n hh) as Hfst; rewrite Hs in Hfst; simpl in Hfst;
      subst
  end.
  exists result. subst name h. simpl.
  rewrite Heqp, with_state_same. auto.
Qed.

(** C6, as stated, fails in one corner of the durable ledger: the record of
    the condition is in the table, the [SELECT] fails, so the alert is sent
    although recorded, and the send fails.  The ledger is unchanged, but at
    the next occurrence the lookup succeeds and [ShouldAlert] answers
    [false]: the condition is suppressed. *)
Lemma C6_not_eligible_after_failed_lookup_counterexample :
  exists o alert err o',
    executeCheck (New sample.ntfy_down sample.recorded)
                 (sample.returns_query_fails sample.down)
                 sample.site_up sample.initial = Some o
    /\ In (CallSend alert (Some err)) (calls o)
    /\ after o = New sample.ntfy_down sample.recorded
    /\ snd (state.ShouldAlert (state (after o)) None "site-up"
              (state.Hash (check.Alert.Title alert) (check.Alert.Message alert))) = false
    /\ executeCheck (after o) (sample.returns sample.down)
                    sample.site_up (backoff o) = Some o'
    /\ forall alert' ret, ~ In (CallSend alert' ret) (calls o').
Proof.
  eexists _, (check.NewAlertFromResult "site-up" sample.down 100), "connection refused", _.
  split; [vm_compute; reflexivity|].
  split; [simpl; tauto|].
  split; [reflexivity|].
  split; [vm_compute; reflexivity|].
  split; [vm_compute; reflexivity|].
  intros alert' ret [H|[H|[]]]; discriminate.
Qed.

(** C6, amended: when [Send] returns an error, [MarkAlerted] is not called
    and the scheduler, ledger included, is as it was before the execution.
    The ledger therefore answers every later lookup as it would have
    answered it before: [true] again under the lookup conditions of this
    execution, and, when this execution's lookup was answered (always, in
    memory), [true] under any conditions, so that the next occurrence of the
    condition is handed to the notifier again. *)
Theorem C6_failed_send_leaves_ledger_unmarked s env c b o alert err :
  executeCheck s env c b = Some o ->
  In (CallSend alert (Some err)) (calls o) ->
  let name := check.Check.Name c in
  let h := state.Hash (check.Alert.Title alert) (check.Alert.Message alert) in
  (forall n h' r, ~ In (CallMarkAlerted n h' r) (calls o))
  /\ after o = s
  /\ (forall io', state.ShouldAlert (state (after o)) io' name h
                  = state.ShouldAlert (state s) io' name h)
  /\ snd (state.ShouldAlert (state (after o)) (query_io env) name h) = true
  /\ (state.answered (state s) (query_io env) ->
      (forall io', snd (state.ShouldAlert (state (after o)) io' name h) = true)
      /\ (forall env' b' result,
            run env' = check.RunOk result ->
            check.CheckResult.ShouldAlert result = true ->
            state.Hash (check.CheckResult.Title result) (check.CheckResult.Message result) = h ->
            exists o' ret,
              executeCheck (after o) env' c b' = Some o'
              /\ In (CallSend (check.NewAlertFromResult name result (now_alert env')) ret)
                    (calls o'))).
Proof.
  intros Hexec Hin name h.
  destruct (send_failed_outcome s env c b o alert err Hexec Hin)
    as (result & Hrun & Hyes & Halert & Hshould & ->).
  fold name h in Hshould. simpl.
  split.
  { intros n h' r [H|[H|[H|[]]]]; discriminate. }
  split; [reflexivity|]. split; [reflexivity|]. split; [exact Hshould|].
  intros Ha.
  assert (Hne : state.stored (state s) name ≠ Some h).
  { apply ShouldAlert_snd in Hshould. tauto. }
  split.
  - intros io'. apply ShouldAlert_snd. now left.
  - intros env' b' result' Hrun' Hyes' Hh'.
    apply permitted_sent; auto. fold name. rewrite Hh'.
    apply ShouldAlert_snd. now left.
Qed.

Lemma C6_failed_send_witness :
  after sample.undelivered = New sample.ntfy_down sample.empty_memory
  /\ forall io',
       snd (state.ShouldAlert (state (after sample.undelivered)) io' "site-up"
              (state.Hash "Site Down" "X is not responding")) = true.
Proof.
  pose proof (C6_failed_send_leaves_ledger_unmarked
                (New sample.ntfy_down sample.empty_memory) (sample.returns sample.down)
                sample.site_up sample.initial sample.undelivered
                (check.NewAlertFromResult "site-up" sample.down 100) "connection refused") as H.
  cbv zeta in H.
  destruct H as (_ & H2 & _ & _ & H5).
  - vm_compute. reflexivity.
  - simpl. tauto.
  - split; [exact H2|]. apply H5. exact I.
Defined.

(** C7, as stated, fails on the durable ledger: the [DELETE] fails, the
    record stays, [ShouldAlert] answers [false] for the recorded hash, and the
    next occurrence of the condition is suppressed. *)
Lemma C7_failed_clear_counterexample :
  exists o1 o2,
    check.CheckResult.ShouldAlert sample.up = false
    /\ executeCheck (New sample.stdout sample.recorded)
                    (sample.returns_exec_fails sample.up)
                    sample.site_up sample.initial = Some o1
    /\ state.stored (state (after o1)) "site-up" = Some sample.down_hash
    /\ snd (state.ShouldAlert (state (after o1)) None "site-up" sample.down_hash) = false
    /\ executeCheck (after o1) (sample.returns sample.down)
                    sample.site_up (backoff o1) = Some o2
    /\ forall alert ret, ~ In (CallSend alert ret) (calls o2).
Proof.
  eexists _, _.
  split; [reflexivity|].
  split; [vm_compute; reflexivity|].
  split; [vm_compute; reflexivity|].
  split; [vm_compute; reflexivity|].
  split; [vm_compute; reflexivity|].
  intros alert ret [H|[H|[]]]; discriminate.
Qed.

(** C7, amended: when the probe returns a result with [ShouldAlert = false],
    the counters are reset to (1, 0) and [Clear] is called once for the
    check, with no other call on the ledger or the notifier.  If [Clear]
    succeeds, which it always does in memory, no record is left for the
    check, every hash satisfies [ShouldAlert = true] for it, and the next
    alerting result for the check is handed to the notifier again; records of
    other checks are not touched.  If [Clear] fails the scheduler is as it
    was. *)
Theorem C7_no_alert_clears_the_record s env c b result :
  run env = check.RunOk result ->
  check.CheckResult.ShouldAlert result = false ->
  let name := check.Check.Name c in
  exists o err,
    executeCheck s env c b = Some o
    /\ backoff o = {| backoffMultiplier := 1; consecutiveFailures := 0 |}
    /\ calls o = [CallRun name (check.RunOk result); CallClear name err]
    /\ notifier (after o) = notifier s
    /\ (forall other, other ≠ name ->
          state.stored (state (after o)) other = state.stored (state s) other)
    /\ (forall m, state s = state.InMemory m -> err = None)
    /\ (err = None ->
        state.stored (state (after o)) name = None
        /\ (forall io h, snd (state.ShouldAlert (state (after o)) io name h) = true)
        /\ (forall env' b' result',
              run env' = check.RunOk result' ->
              check.CheckResult.ShouldAlert result' = true ->
              exists o' ret,
                executeCheck (after o) env' c b' = Some o'
                /\ In (CallSend (check.NewAlertFromResult name result' (now_alert env')) ret)
                      (calls o')))
    /\ (forall e, err = Some e -> after o = s).
Proof.
  intros Hrun Hno name.
  rewrite (executeCheck_clear s env c b result Hrun Hno). fold name.
  destruct (state.Clear (state s) (exec_io env) name) as [st err] eqn:Hclear.
  exists {| after := with_state s st;
            backoff := {| backoffMultiplier := 1; consecutiveFailures := 0 |};
            calls := [CallRun name (check.RunOk result); CallClear name err] |}, err.
  simpl. split; [reflexivity|]. split; [reflexivity|]. split; [reflexivity|].
  split; [reflexivity|].
  split; [intros other Hne; exact (Clear_other _ _ _ _ _ _ Hclear Hne)|].
  split.
  { intros m Hm. rewrite Hm in Hclear. simpl in Hclear. congruence. }
  split.
  - intros ->.
    pose proof (Clear_ok _ _ _ _ Hclear) as Hnone.
    split; [exact Hnone|].
    assert (Hall : forall io h, snd (state.ShouldAlert st io name h) = true).
    { intros io h. apply ShouldAlert_snd. left. rewrite Hnone. discriminate. }
    split; [exact Hall|].
    intros env' b' result' Hrun' Hyes'.
    apply permitted_sent; auto.
  - intros e ->. rewrite (Clear_failed _ _ _ _ _ Hclear). apply with_state_same.
Qed.

Lemma C7_no_alert_clears_witness :
  exists o err,
    executeCheck (after sample.delivered) (sample.returns sample.up)
                 sample.site_up sample.initial = Some o
    /\ calls o = [CallRun "site-up" (check.RunOk sample.up); CallClear "site-up" err]
    /\ (err = None -> state.stored (state (after o)) "site-up" = None).
Proof.
  destruct (C7_no_alert_clears_the_record
              (after sample.delivered) (sample.returns sample.up)
              sample.site_up sample.initial sample.up eq_refl eq_refl)
    as (o & err & H1 & _ & H3 & _ & _ & _ & H7 & _).
  exists o, err. split; [exact H1|]. split; [exact H3|].
  intros He. exact (proj1 (H7 He)).
Defined.

(** When the probe returns an error the execution returns having made no
    call on the ledger or the notifier and leaves the scheduler, ledger
    included, as it was; the failure count is incremented and the multiplier
    becomes [min(1 << failures, 32)], which is not below the multiplier of a
    streak that was shorter than 62. *)
Lemma probe_error_outcome s env c b err :
  run env = check.RunErr err ->
  0 <= consecutiveFailures b < 2 ^ 63 - 1 ->
  exists o,
    executeCheck s env c b = Some o
    /\ calls o = [CallRun (check.Check.Name c) (check.RunErr err)]
    /\ after o = s
    /\ consecutiveFailures (backoff o) = consecutiveFailures b + 1
    /\ backoffMultiplier (backoff o)
       = Z.min (wrap64 (2 ^ consecutiveFailures (backoff o))) maxBackoffMultiplier
    /\ (consecutiveFailures b < 62 ->
        backoffMultiplier b = Z.min (2 ^ consecutiveFailures b) maxBackoffMultiplier ->
        backoffMultiplier (backoff o)
        = Z.min (2 ^ (consecutiveFailures b + 1)) maxBackoffMultiplier
        /\ backoffMultiplier b <= backoffMultiplier (backoff o)
        /\ (consecutiveFailures b < 5 ->
            backoffMultiplier (backoff o) = 2 * backoffMultiplier b)).
Proof.
  intros Hrun Hcf.
  rewrite (executeCheck_error s env c b err Hrun Hcf).
  eexists. split; [reflexivity|]. simpl.
  split; [reflexivity|]. split; [reflexivity|]. split; [reflexivity|].
  split; [reflexivity|].
  intros Hlt Hinv.
  assert (Hpow : 2 ^ (consecutiveFailures b + 1) = 2 * 2 ^ consecutiveFailures b)
    by (rewrite Z.pow_add_r by lia; lia).
  assert (Hpos : 0 < 2 ^ consecutiveFailures b) by (apply Z.pow_pos_nonneg; lia).
  assert (Hle : 2 ^ (consecutiveFailures b + 1) <= 2 ^ 62)
    by (apply Z.pow_le_mono_r; lia).
  rewrite wrap64_small by lia.
  split; [reflexivity|]. rewrite Hinv. unfold maxBackoffMultiplier.
  split; [lia|].
  intros H5.
  assert (2 ^ consecutiveFailures b <= 2 ^ 4) by (apply Z.pow_le_mono_r; lia).
  lia.
Qed.

(** After the delivery of the scenario a failed probe doubles the
    multiplier and leaves the record where it is. *)
Example probe_error_after_delivery :
  exists o,
    executeCheck (after sample.delivered) sample.fails sample.site_up sample.initial = Some o
    /\ calls o = [CallRun "site-up" (check.RunErr "connection reset")]
    /\ after o = after sample.delivered
    /\ backoffMultiplier (backoff o) = 2.
Proof.
  destruct (probe_error_outcome
              (after sample.delivered) sample.fails sample.site_up sample.initial
              "connection reset" eq_refl)
    as (o & H1 & H2 & H3 & H4 & H5 & H6).
  - simpl. lia.
  - exists o. split; [exact H1|]. split; [exact H2|]. split; [exact H3|].
    destruct H6 as (H6 & _); [simpl; lia | reflexivity |].
    exact H6.
Qed.

(** ** Backoff *)

Lemma wrap64_pow2_ge_64 (n : Z) : 64 <= n -> wrap64 (2 ^ n) = 0.
Proof.
  intros Hn. unfold wrap64.
  replace (2 ^ n) with (2 ^ (n - 64) * 2 ^ 64)
    by (rewrite <- Z.pow_add_r by lia; f_equal; lia).
  rewrite Z.add_comm, Z_mod_plus_full. reflexivity.
Qed.

(** The wait is never above the ceiling. *)
Lemma interval_le_max c b : interval c b <= maxBackoffDuration.
Proof.
  unfold interval.
  destruct (Z.ltb_spec maxBackoffDuration
              (wrap64 (check.Check.Interval c * backoffMultiplier b))); lia.
Qed.

(** Without overflow the wait is [min(baseInterval * multiplier, 1 hour)]. *)
Lemma interval_no_overflow c b :
  - 2 ^ 63 <= check.Check.Interval c * backoffMultiplier b < 2 ^ 63 ->
  interval c b = Z.min (check.Check.Interval c * backoffMultiplier b) time.Hour.
Proof.
  intros H. unfold interval, maxBackoffDuration. rewrite wrap64_small by exact H.
  destruct (Z.ltb_spec time.Hour (check.Check.Interval c * backoffMultiplier b)); lia.
Qed.

(** After a failed probe the multiplier is never above 32. *)
Lemma multiplier_le_max s env c b o err :
  run env = check.RunErr err ->
  executeCheck s env c b = Some o ->
  backoffMultiplier (backoff o) <= maxBackoffMultiplier.
Proof. intros Hrun H. exec_cases H. simpl. lia. Qed.

(** From the 64th consecutive failure on, the multiplier is 0 and so is the
    wait. *)
Lemma multiplier_zero_from_64 s env c b err :
  run env = check.RunErr err ->
  63 <= consecutiveFailures b < 2 ^ 63 - 1 ->
  exists o,
    executeCheck s env c b = Some o
    /\ backoffMultiplier (backoff o) = 0
    /\ interval c (backoff o) = 0.
Proof.
  intros Hrun Hcf.
  rewrite (executeCheck_error s env c b err Hrun) by lia.
  eexists. split; [reflexivity|]. simpl.
  rewrite wrap64_pow2_ge_64 by lia.
  split; [reflexivity|].
  unfold interval. simpl. rewrite Z.mul_0_r. reflexivity.
Qed.

(** The rounds of a streak of failed probes shorter than 63: the two
    counters follow [(n, min(2^n, 32))] and nothing else changes. *)
Lemma loop_failures (envs : list Env) s c b (ws : list Z) (l : list Call) :
  Forall (fun env => exists err, run env = check.RunErr err) envs ->
  0 <= consecutiveFailures b ->
  consecutiveFailures b + Z.of_nat (length envs) <= 62 ->
  backoffMultiplier b = Z.min (2 ^ consecutiveFailures b) maxBackoffMultiplier ->
  exists t,
    loop s c b envs ws l = Some t
    /\ final t = s
    /\ consecutiveFailures (final_backoff t)
       = consecutiveFailures b + Z.of_nat (length envs)
    /\ backoffMultiplier (final_backoff t)
       = Z.min (2 ^ consecutiveFailures (final_backoff t)) maxBackoffMultiplier.
Proof.
  revert b ws l.
  induction envs as [|env envs IH]; intros b ws l Hall Hcf Hlen Hinv; simpl.
  - eexists. split; [reflexivity|]. simpl. split; [reflexivity|]. split; [lia|exact Hinv].
  - inversion Hall as [|? ? [err Hrun] Hall']; subst.
    simpl length in Hlen. rewrite Nat2Z.inj_succ in Hlen.
    rewrite (executeCheck_error s env c b err Hrun) by lia. simpl.
    edestruct (IH {| backoffMultiplier :=
                       Z.min (wrap64 (2 ^ (consecutiveFailures b + 1))) maxBackoffMultiplier;
                     consecutiveFailures := consecutiveFailures b + 1 |})
      as (t & Ht & Hs & Hc & Hm); [exact Hall' | simpl; lia | simpl; lia | |].
    + simpl. rewrite wrap64_small; [reflexivity|].
      assert (2 ^ (consecutiveFailures b + 1) <= 2 ^ 62) by (apply Z.pow_le_mono_r; lia).
      assert (0 < 2 ^ (consecutiveFailures b + 1)) by (apply Z.pow_pos_nonneg; lia).
      lia.
    + exists t. split; [exact Ht|]. split; [exact Hs|]. simpl in Hc.
      split; [rewrite Nat2Z.inj_succ; lia | exact Hm].
Qed.

(** For streaks of fewer than 63 failed probes and base intervals that do
    not overflow when multiplied by 32, the multiplier after the N-th
    failure is [min(2^N, 32)] and the wait before the next execution is
    [min(baseInterval * multiplier, 1 hour)]. *)
Lemma backoff_streak_below_63 s c (env0 : Env) (envs : list Env) :
  Forall (fun env => exists err, run env = check.RunErr err) (env0 :: envs) ->
  let N := Z.of_nat (length (env0 :: envs)) in
  N <= 62 ->
  exists t,
    runCheck s c env0 envs = Some t
    /\ final t = s
    /\ consecutiveFailures (final_backoff t) = N
    /\ backoffMultiplier (final_backoff t) = Z.min (2 ^ N) 32
    /\ (0 <= check.Check.Interval c < 2 ^ 58 ->
        interval c (final_backoff t)
        = Z.min (check.Check.Interval c * Z.min (2 ^ N) 32) time.Hour).
Proof.
  intros Hall N HN. subst N. simpl length in *. rewrite Nat2Z.inj_succ in *.
  inversion Hall as [|? ? [err Hrun] Hall']; subst.
  unfold runCheck.
  rewrite (executeCheck_error s env0 c _ err Hrun) by (simpl; lia). simpl.
  edestruct (loop_failures envs s c
               {| backoffMultiplier := Z.min (wrap64 (2 ^ (0 + 1))) maxBackoffMultiplier;
                  consecutiveFailures := 0 + 1 |} []
               [CallRun (check.Check.Name c) (check.RunErr err)])
    as (t & Ht & Hs & Hc & Hm); [exact Hall' | simpl; lia | simpl; lia | reflexivity |].
  simpl in Hc.
  exists t. split; [exact Ht|]. split; [exact Hs|]. split; [lia|].
  assert (HcN : consecutiveFailures (final_backoff t) = Z.succ (Z.of_nat (length envs)))
    by lia.
  rewrite HcN in Hm. unfold maxBackoffMultiplier in Hm.
  split; [exact Hm|].
  intros Hbase. rewrite interval_no_overflow; rewrite Hm; [reflexivity|].
  assert (0 < 2 ^ Z.succ (Z.of_nat (length envs))) by (apply Z.pow_pos_nonneg; lia).
  change (2 ^ 63) with (2 ^ 58 * 32). nia.
Qed.

(** The spec's scenario: base interval 1 minute, seven consecutive
    failures; the waits are 2, 4, 8, 16, 32, 32 minutes and then 32 again. *)
Example backoff_scenario_seven_failures :
  exists t,
    runCheck (New sample.stdout sample.empty_memory) sample.site_up
             sample.fails (repeat sample.fails 6) = Some t
    /\ map (fun w => w / time.Minute) (waits t) = [2; 4; 8; 16; 32; 32]
    /\ interval sample.site_up (final_backoff t) = 32 * time.Minute
    /\ final_backoff t = {| backoffMultiplier := 32; consecutiveFailures := 7 |}.
Proof. eexists. split; [vm_compute; reflexivity|]. repeat split. Qed.

(** C3 fails on the code at the 63rd consecutive failure: [1 << 63] wraps
    to the smallest 64-bit integer before [min] is taken, so the multiplier
    is -2^63 instead of [min(2^63, 32) = 32], and with a base interval of
    one minute the wait is 0 instead of 32 minutes. *)
Theorem C3_multiplier_after_63_failures :
  exists t,
    runCheck (New sample.stdout sample.empty_memory) sample.site_up
             sample.fails (repeat sample.fails 62) = Some t
    /\ consecutiveFailures (final_backoff t) = 63
    /\ backoffMultiplier (final_backoff t) = - 2 ^ 63
    /\ Z.min (2 ^ 63) 32 = 32
    /\ interval sample.site_up (final_backoff t) = 0
    /\ Z.min (check.Check.Interval sample.site_up * Z.min (2 ^ 63) 32) time.Hour
       = 32 * time.Minute.
Proof. eexists. split; [vm_compute; reflexivity|]. repeat split. Qed.

(** C4 fails on the code for streaks of 63 failures and more: the
    multiplier that is used is negative after the 63rd consecutive failure
    and zero after the 64th, and the wait before the next execution is then
    zero. *)
Theorem C4_multiplier_not_positive_from_63_failures :
  exists t63 t64,
    runCheck (New sample.stdout sample.empty_memory) sample.site_up
             sample.fails (repeat sample.fails 62) = Some t63
    /\ backoffMultiplier (final_backoff t63) < 0
    /\ runCheck (New sample.stdout sample.empty_memory) sample.site_up
                sample.fails (repeat sample.fails 63) = Some t64
    /\ consecutiveFailures (final_backoff t64) = 64
    /\ backoffMultiplier (final_backoff t64) = 0
    /\ interval sample.site_up (final_backoff t64) = 0
    /\ last (waits t64) = Some 0.
Proof.
  eexists _, _. split; [vm_compute; reflexivity|]. split; [reflexivity|].
  split; [vm_compute; reflexivity|]. repeat split.
Qed.

(** C8 fails on the code at the 63rd consecutive failure.  After 62 failed
    probes in a row the multiplier is 32 and the failure count 62; when the
    probe fails once more the count becomes 63 and the multiplier
    [min(1 << 63, 32)], which is -2^63: the failure lowers the multiplier
    instead of raising it or holding it at 32, and the next wait is 0.  The
    rest of the claim holds in that execution too: the probe is the only
    call and the scheduler, ledger included, is as it was. *)
Theorem C8_failed_probe_lowers_the_multiplier_at_63_failures :
  exists t62 o,
    runCheck (New sample.stdout sample.empty_memory) sample.site_up
             sample.fails (repeat sample.fails 61) = Some t62
    /\ final_backoff t62 = {| backoffMultiplier := 32; consecutiveFailures := 62 |}
    /\ interval sample.site_up (final_backoff t62) = 32 * time.Minute
    /\ executeCheck (final t62) sample.fails sample.site_up (final_backoff t62) = Some o
    /\ calls o = [CallRun "site-up" (check.RunErr "connection reset")]
    /\ after o = final t62
    /\ consecutiveFailures (backoff o) = 63
    /\ backoffMultiplier (backoff o) = - 2 ^ 63
    /\ backoffMultiplier (backoff o) < backoffMultiplier (final_backoff t62)
    /\ interval sample.site_up (backoff o) = 0.
Proof.
  eexists _, _. split; [vm_compute; reflexivity|]. split; [reflexivity|].
  split; [reflexivity|]. split; [vm_compute; reflexivity|]. repeat split.
Qed.

(** ** The scenario of the specification *)

(** Check "site-up" with the in-memory ledger: "Site Down" is delivered and
    recorded; its repetition (other tags, same title and message) is
    suppressed; a result without alert clears the record; the condition is
    delivered again afterwards.  Every wait is the base interval. *)
Example scenario_site_up :
  exists t,
    runCheck (New sample.stdout sample.empty_memory) sample.site_up
             (sample.returns sample.down)
             [sample.returns sample.down'; sample.returns sample.up;
              sample.returns sample.down] = Some t
    /\ log t
       = [CallRun "site-up" (check.RunOk sample.down);
          CallShouldAlert "site-up" sample.down_hash true;
          CallSend (check.NewAlertFromResult "site-up" sample.down 100) None;
          CallMarkAlerted "site-up" sample.down_hash None;
          CallRun "site-up" (check.RunOk sample.down');
          CallShouldAlert "site-up" sample.down_hash false;
          CallRun "site-up" (check.RunOk sample.up);
          CallClear "site-up" None;
          CallRun "site-up" (check.RunOk sample.down);
          CallShouldAlert "site-up" sample.down_hash true;
          CallSend (check.NewAlertFromResult "site-up" sample.down 100) None;
          CallMarkAlerted "site-up" sample.down_hash None]
    /\ waits t = [time.Minute; time.Minute; time.Minute]
    /\ state.stored (state (final t)) "site-up" = Some sample.down_hash.
Proof.
  eexists. split; [vm_compute; reflexivity|]. repeat split.
Qed.


(** A result whose title and message are split elsewhere but concatenate to
    the same string is suppressed as a duplicate of the recorded one. *)
Example split_differently_is_suppressed :
  executeCheck (after sample.delivered) (sample.returns sample.down_split)
               sample.site_up sample.initial
  = Some {| after := after sample.delivered;
            backoff := sample.initial;
            calls := [CallRun "site-up" (check.RunOk sample.down_split);
                      CallShouldAlert "site-up" sample.down_hash false] |}.
Proof. vm_compute. reflexivity. Qed.

End Execution.

(* ===================================================================== *)
(** * Further properties of the ledger                                   *)
(* ===================================================================== *)

Section LedgerOperations.

Implicit Types (st : state.State) (io : option error) (name h : string).

Lemma MarkAlerted_other st io now name h st' err other :
  state.MarkAlerted st io now name h = (st', err) -> other ≠ name ->
  state.stored st' other = state.stored st other.
Proof.
  intros H Hne. destruct st as [m|s]; simpl in H.
  - injection H as <- _. simpl. now rewrite lookup_insert_ne.
  - unfold state.SQLite.MarkAlerted in H.
    destruct io as [e|]; injection H as <- _; [reflexivity|].
    simpl. now rewrite lookup_insert_ne.
Qed.

(** X1: after a successful [MarkAlerted] for a check, an answered
    [ShouldAlert] for that check is [false] for the recorded hash and [true]
    for every other hash, in both implementations. *)
Theorem X1_MarkAlerted_then_ShouldAlert st io now name h st' io' h' :
  state.MarkAlerted st io now name h = (st', None) ->
  state.answered st' io' ->
  snd (state.ShouldAlert st' io' name h') = bool_decide (h' ≠ h).
Proof.
  intros Hm Ha. rewrite (ShouldAlert_answered _ _ _ _ Ha).
  rewrite (MarkAlerted_ok _ _ _ _ _ _ Hm).
  apply bool_decide_ext. split; congruence.
Qed.

Lemma X1_MarkAlerted_then_ShouldAlert_witness :
  snd (state.ShouldAlert sample.recorded None "site-up" sample.down_hash)
  = bool_decide (sample.down_hash ≠ sample.down_hash).
Proof.
  apply (X1_MarkAlerted_then_ShouldAlert sample.empty_sqlite None 0 "site-up"
           sample.down_hash sample.recorded None sample.down_hash); reflexivity.
Defined.

(** X2: [MarkAlerted] is last-writer-wins: marking a check twice leaves
    exactly the ledger that the second call alone would have left. *)
Theorem X2_MarkAlerted_last_writer_wins st io1 io2 now1 now2 name h1 h2 st1 st2 :
  state.MarkAlerted st io1 now1 name h1 = (st1, None) ->
  state.MarkAlerted st1 io2 now2 name h2 = (st2, None) ->
  state.MarkAlerted st io2 now2 name h2 = (st2, None).
Proof.
  destruct st as [m|s]; simpl.
  - intros [= <-]. simpl. intros [= <-]. now rewrite insert_insert_eq.
  - unfold state.SQLite.MarkAlerted.
    destruct io1; [discriminate|]. intros [= <-].
    destruct io2; [discriminate|]. simpl. intros [= <-]. now rewrite insert_insert_eq.
Qed.

Lemma X2_MarkAlerted_last_writer_wins_witness :
  state.MarkAlerted sample.empty_sqlite None 0 "site-up" sample.down_hash
  = (sample.recorded, None).
Proof.
  apply (X2_MarkAlerted_last_writer_wins sample.empty_sqlite None None 7 0 "site-up"
           "0123456789abcdef" sample.down_hash
           (fst (state.MarkAlerted sample.empty_sqlite None 7 "site-up" "0123456789abcdef")));
    vm_compute; reflexivity.
Defined.

(** X3: [MarkAlerted] and [Clear] for one check, whether they succeed or
    fail, leave the record of every other check, and the answers of
    [ShouldAlert] for it, as they were. *)
Theorem X3_ledger_writes_are_per_check st io now name h other :
  other ≠ name ->
  let marked := fst (state.MarkAlerted st io now name h) in
  let cleared := fst (state.Clear st io name) in
  state.stored marked other = state.stored st other
  /\ state.stored cleared other = state.stored st other
  /\ (forall io' h',
        snd (state.ShouldAlert marked io' other h')
        = snd (state.ShouldAlert st io' other h')
        /\ snd (state.ShouldAlert cleared io' other h')
           = snd (state.ShouldAlert st io' other h')).
Proof.
  intros Hne marked cleared.
  assert (Hm : state.stored marked other = state.stored st other).
  { subst marked. destruct (state.MarkAlerted st io now name h) as [st' err] eqn:H.
    exact (MarkAlerted_other _ _ _ _ _ _ _ _ H Hne). }
  assert (Hc : state.stored cleared other = state.stored st other).
  { subst cleared. destruct (state.Clear st io name) as [st' err] eqn:H.
    exact (Clear_other _ _ _ _ _ _ H Hne). }
  split; [exact Hm|]. split; [exact Hc|].
  assert (Hans : forall st1 st2 io' h',
             state.stored st1 other = state.stored st2 other ->
             (state.answered st1 io' <-> state.answered st2 io') ->
             snd (state.ShouldAlert st1 io' other h')
             = snd (state.ShouldAlert st2 io' other h')).
  { intros st1 st2 io' h' Hs Ha.
    destruct (snd (state.ShouldAlert st2 io' other h')) eqn:E.
    - apply ShouldAlert_snd. apply ShouldAlert_snd in E. rewrite Hs. tauto.
    - destruct (snd (state.ShouldAlert st1 io' other h')) eqn:E1; [|reflexivity].
      apply ShouldAlert_snd in E1. rewrite Hs, Ha in E1.
      apply ShouldAlert_snd in E1. congruence. }
  intros io' h'. split; apply Hans; auto.
  - subst marked. destruct st; simpl; [tauto|].
    unfold state.SQLite.MarkAlerted. destruct io; simpl; tauto.
  - subst cleared. destruct st; simpl; [tauto|].
    unfold state.SQLite.Clear. destruct io; simpl; tauto.
Qed.

Lemma X3_ledger_writes_are_per_check_witness :
  state.stored (fst (state.MarkAlerted sample.recorded None 5 "btc-price" "0123456789abcdef"))
               "site-up"
  = state.stored sample.recorded "site-up".
Proof.
  refine (proj1 (X3_ledger_writes_are_per_check sample.recorded None 5 "btc-price"
                   "0123456789abcdef" "site-up" _)).
  discriminate.
Defined.

Lemma Clear_absent st io name :
  state.stored st name = None -> fst (state.Clear st io name) = st.
Proof.
  intros Hnone. destruct st as [m|s]; simpl in *.
  - destruct m as [al]. simpl in *. f_equal. f_equal.
    apply delete_id. now destruct (al !! name).
  - unfold state.SQLite.Clear. destruct io as [e|]; [reflexivity|].
    destruct s as [d]. simpl in *. f_equal. f_equal.
    apply delete_id. now destruct (d !! name).
Qed.

(** X4: [Clear] for a check that has no record leaves the ledger exactly as
    it was; hence a second [Clear] after a successful one changes nothing. *)
Theorem X4_Clear_without_record st io name :
  (state.stored st name = None -> fst (state.Clear st io name) = st)
  /\ (forall st' io',
        state.Clear st io name = (st', None) -> fst (state.Clear st' io' name) = st').
Proof.
  split; [apply Clear_absent|].
  intros st' io' Hc. apply Clear_absent. exact (Clear_ok _ _ _ _ Hc).
Qed.

Lemma X4_Clear_without_record_witness :
  fst (state.Clear sample.empty_memory None "site-up") = sample.empty_memory.
Proof.
  apply (proj1 (X4_Clear_without_record sample.empty_memory None "site-up")). reflexivity.
Defined.

(** X5: on a ledger without a record for the check, a successful
    [MarkAlerted] followed by a successful [Clear] gives back the ledger as
    it was, whatever the records of the other checks. *)
Theorem X5_MarkAlerted_then_Clear st io io' now name h st1 st2 :
  state.stored st name = None ->
  state.MarkAlerted st io now name h = (st1, None) ->
  state.Clear st1 io' name = (st2, None) ->
  st2 = st.
Proof.
  intros Hnone. destruct st as [m|s]; simpl in *.
  - intros [= <-]. simpl. intros [= <-].
    destruct m as [al]. simpl in *. f_equal. f_equal.
    apply delete_insert_id. now destruct (al !! name).
  - unfold state.SQLite.MarkAlerted, state.SQLite.Clear.
    destruct io; [discriminate|]. intros [= <-].
    destruct io'; [discriminate|]. simpl. intros [= <-].
    destruct s as [d]. simpl in *. f_equal. f_equal.
    apply delete_insert_id. now destruct (d !! name).
Qed.

Lemma X5_MarkAlerted_then_Clear_witness :
  fst (state.Clear sample.recorded None "site-up") = sample.empty_sqlite.
Proof.
  apply (X5_MarkAlerted_then_Clear sample.empty_sqlite None None 0 "site-up"
           sample.down_hash sample.recorded); vm_compute; reflexivity.
Defined.

(** X6: as long as no statement fails, the durable ledger behaves as the
    in-memory one: on two ledgers that hold the same hashes, [ShouldAlert]
    answers alike, and [MarkAlerted] and [Clear] succeed on both and leave
    them holding the same hashes again. *)
Theorem X6_implementations_agree st1 st2 name h :
  (forall n, state.stored st1 n = state.stored st2 n) ->
  snd (state.ShouldAlert st1 None name h) = snd (state.ShouldAlert st2 None name h)
  /\ (forall now1 now2,
        snd (state.MarkAlerted st1 None now1 name h) = None
        /\ snd (state.MarkAlerted st2 None now2 name h) = None
        /\ forall n, state.stored (fst (state.MarkAlerted st1 None now1 name h)) n
                     = state.stored (fst (state.MarkAlerted st2 None now2 name h)) n)
  /\ snd (state.Clear st1 None name) = None
  /\ snd (state.Clear st2 None name) = None
  /\ (forall n, state.stored (fst (state.Clear st1 None name)) n
                = state.stored (fst (state.Clear st2 None name)) n).
Proof.
  intros Hsame.
  assert (Ha : forall st, state.answered st None) by (intros []; reflexivity).
  assert (Hmark : forall st now n,
             state.stored (fst (state.MarkAlerted st None now name h)) n
             = if decide (n = name) then Some h else state.stored st n).
  { intros st now n. destruct (state.MarkAlerted st None now name h) as [st' err] eqn:H.
    simpl. case_decide as Hn.
    - subst n. assert (err = None) as -> by (destruct st; simpl in H; congruence).
      exact (MarkAlerted_ok _ _ _ _ _ _ H).
    - exact (MarkAlerted_other _ _ _ _ _ _ _ _ H Hn). }
  assert (Hclear : forall st n,
             state.stored (fst (state.Clear st None name)) n
             = if decide (n = name) then None else state.stored st n).
  { intros st n. destruct (state.Clear st None name) as [st' err] eqn:H.
    simpl. case_decide as Hn.
    - subst n. assert (err = None) as -> by (destruct st; simpl in H; congruence).
      exact (Clear_ok _ _ _ _ H).
    - exact (Clear_other _ _ _ _ _ _ H Hn). }
  split.
  { rewrite !ShouldAlert_answered by apply Ha. now rewrite Hsame. }
  split.
  { intros now1 now2. split; [now destruct st1|]. split; [now destruct st2|].
    intros n. rewrite !Hmark. now rewrite Hsame. }
  split; [now destruct st1|]. split; [now destruct st2|].
  intros n. rewrite !Hclear. now rewrite Hsame.
Qed.

Lemma X6_implementations_agree_witness :
  snd (state.ShouldAlert sample.empty_memory None "site-up" sample.down_hash)
  = snd (state.ShouldAlert sample.empty_sqlite None "site-up" sample.down_hash).
Proof.
  refine (proj1 (X6_implementations_agree sample.empty_memory sample.empty_sqlite
                   "site-up" sample.down_hash _)).
  intros n. reflexivity.
Defined.

End LedgerOperations.

(* ===================================================================== *)
(** * The format of the condition hash                                   *)
(* ===================================================================== *)

Section HashFormat.

Local Abbreviation chars := list_ascii_of_string.

Lemma round_length (s : list Z) (kw : Z * Z) :
  length s = 8%nat -> length (sha256.round s kw) = 8%nat.
Proof.
  intros H. do 9 (destruct s as [|? s]; try discriminate H). reflexivity.
Qed.

Lemma fold_round_length (kws : list (Z * Z)) (s : list Z) :
  length s = 8%nat -> length (fold_left sha256.round kws s) = 8%nat.
Proof.
  revert s. induction kws as [|kw kws IH]; intros s H; simpl; [exact H|].
  apply IH, round_length, H.
Qed.

Lemma block_length (h blk : list Z) :
  length h = 8%nat -> length (sha256.block h blk) = 8%nat.
Proof.
  intros H. unfold sha256.block.
  rewrite length_map, length_combine, fold_round_length by exact H.
  rewrite H. reflexivity.
Qed.

Lemma blocks_length (n : nat) (h bs : list Z) :
  length h = 8%nat -> length (sha256.blocks n h bs) = 8%nat.
Proof.
  revert h bs. induction n as [|n IH]; intros h bs H; simpl; [exact H|].
  apply IH, block_length, H.
Qed.

Lemma flat_map_be32_length (ws : list Z) :
  length (flat_map sha256.bytes_of_be32 ws) = (4 * length ws)%nat.
Proof. induction ws as [|w ws IH]; simpl; [reflexivity|]. rewrite IH. lia. Qed.

Lemma Sum256_length (msg : list Z) : length (sha256.Sum256 msg) = 32%nat.
Proof.
  unfold sha256.Sum256. rewrite flat_map_be32_length, blocks_length; reflexivity.
Qed.

Lemma EncodeToString_length (src : list Z) :
  String.length (hex.EncodeToString src) = (2 * length src)%nat.
Proof. induction src as [|b src IH]; simpl; [reflexivity|]. rewrite IH. lia. Qed.

Lemma substring_0_length (n : nat) (s : string) :
  (n <= String.length s)%nat -> String.length (String.substring 0 n s) = n.
Proof.
  revert s. induction n as [|n IH]; intros s H.
  - now destruct s.
  - destruct s as [|c s]; simpl in *; [lia|]. rewrite IH; [reflexivity|lia].
Qed.

Lemma substring_Forall (P : ascii -> Prop) (n m : nat) (s : string) :
  Forall P (chars s) -> Forall P (chars (String.substring n m s)).
Proof.
  revert n m. induction s as [|c s IH]; intros n m H.
  - destruct n, m; simpl; auto.
  - inversion H; subst. destruct n as [|n]; [destruct m as [|m]|]; simpl; auto.
Qed.

Lemma get_In (n : nat) (s : string) (c : ascii) :
  String.get n s = Some c -> In c (chars s).
Proof.
  revert n. induction s as [|a s IH]; intros n H; simpl in *; [discriminate|].
  destruct n as [|n]; [left; congruence | right; eauto].
Qed.

Lemma digit_hex (n : Z) : In (hex.digit n) (chars hex.hextable).
Proof.
  unfold hex.digit. destruct (String.get _ _) as [c|] eqn:H.
  - exact (get_In _ _ _ H).
  - simpl. auto.
Qed.

Lemma EncodeToString_hex (src : list Z) :
  Forall (fun c => In c (chars hex.hextable)) (chars (hex.EncodeToString src)).
Proof.
  induction src as [|b src IH]; simpl; [constructor|].
  constructor; [apply digit_hex|]. constructor; [apply digit_hex | exact IH].
Qed.

(** X7: whatever the title and the message, [Hash] is a string of exactly
    16 characters, each of them one of [0123456789abcdef]. *)
Theorem X7_Hash_is_16_hex_digits (title message : string) :
  String.length (state.Hash title message) = 16%nat
  /\ Forall (fun c => In c (chars "0123456789abcdef")) (chars (state.Hash title message)).
Proof.
  unfold state.Hash. split.
  - apply substring_0_length. rewrite EncodeToString_length.
    unfold sha256.Sum. rewrite Sum256_length. lia.
  - apply substring_Forall, EncodeToString_hex.
Qed.

End HashFormat.

(* ===================================================================== *)
(** * Further properties of the fan-out notifier                         *)
(* ===================================================================== *)

Section FanOutGrowth.

Variable alert : check.Alert.t.

Local Abbreviation errors_of :=
  (fun res : option notifier.MultiError => from_option notifier.Errors [] res).

(** X8: [Add] appends: after [m.Add(n)], [Send] makes the calls of the
    former [m] and then one call on [n], and reports the former errors
    followed by the error of [n], if any; it returns [nil] exactly when the
    former [m] did and [n] does. *)
Theorem X8_Multi_Add_is_called_last (m : notifier.Multi.t) (n : notifier.Notifier) :
  let before := notifier.Multi.Send m alert in
  let after := notifier.Multi.Send (notifier.Multi.Add m n) alert in
  snd after = snd before ++ [(n, alert)]
  /\ errors_of (fst after)
     = errors_of (fst before)
       ++ match notifier.Send n alert with
          | Some err => [notifier.Name n +:+ ": " +:+ err]
          | None => []
          end
  /\ (fst after = None <-> fst before = None /\ notifier.Send n alert = None).
Proof.
  unfold notifier.Multi.Send, notifier.Multi.Add. simpl.
  rewrite !range_spec. simpl.
  rewrite omap_app, map_app. simpl.
  set (es := omap _ (notifier.Multi.notifiers m)).
  destruct (notifier.Send n alert) as [e|]; simpl.
  - rewrite length_app. simpl.
    destruct es as [|e0 es]; simpl.
    + repeat split; try discriminate. intros [_ H]. discriminate.
    + destruct (length es + 1)%nat eqn:Hl; [lia|]. simpl.
      repeat split; try discriminate. intros [H _]. discriminate.
  - rewrite !app_nil_r.
    destruct es as [|e0 es]; simpl; repeat split; auto; try discriminate.
    intros [H _]. discriminate.
Qed.

End FanOutGrowth.

(* ===================================================================== *)
(** * Further properties of the scheduler                                *)
(* ===================================================================== *)

Section Rounds.

Import scheduler.

Implicit Types (s : Scheduler) (env : Env) (c : check.Check.t) (b : Backoff).

Local Abbreviation failing :=
  (fun env : Env => exists err, run env = check.RunErr err).

Ltac outcome_cases H :=
  unfold executeCheck in H;
  repeat match type of H with
         | context [match ?x with _ => _ end] => destruct x eqn:?
         end;
  simplify_eq/=.

Ltac same_ledger :=
  repeat match goal with
         | Hs : state.ShouldAlert ?st ?io ?n ?h = (?st', _) |- _ =>
             let Hf := fresh in
             pose proof (ShouldAlert_fst st io n h) as Hf;
             rewrite Hs in Hf; simpl in Hf; subst st'; clear Hs
         end.

(** X9: an execution of a check leaves the registered checks and the
    notifier of the scheduler as they were, and the ledger records of every
    other check untouched. *)
Theorem X9_executeCheck_touches_only_its_record s env c b o :
  executeCheck s env c b = Some o ->
  checks (after o) = checks s
  /\ notifier (after o) = notifier s
  /\ forall other, other ≠ check.Check.Name c ->
       state.stored (state (after o)) other = state.stored (state s) other.
Proof.
  intros H. outcome_cases H; same_ledger;
    (split; [reflexivity|]; split; [reflexivity|]; intros other Hne; try reflexivity).
  - eapply Clear_other; eauto.
  - eapply MarkAlerted_other; eauto.
Qed.

Lemma X9_executeCheck_touches_only_its_record_witness :
  state.stored (state (after sample.delivered)) "btc-price"
  = state.stored sample.empty_memory "btc-price".
Proof.
  refine (proj2 (proj2 (X9_executeCheck_touches_only_its_record
                          (New sample.stdout sample.empty_memory)
                          (sample.returns sample.down) sample.site_up sample.initial
                          sample.delivered _)) "btc-price" _).
  - reflexivity.
  - discriminate.
Defined.

(** X10: [MarkAlerted] is called only as the last call of an execution in
    which the probe asked for an alert, [ShouldAlert] answered [true] and
    [Send] returned [nil]; it is called for the check's own name with the
    hash of the title and message of the alert that was sent. *)
Theorem X10_MarkAlerted_only_after_delivery s env c b o name h ret :
  executeCheck s env c b = Some o ->
  In (CallMarkAlerted name h ret) (calls o) ->
  exists result,
    let alert := check.NewAlertFromResult name result (now_alert env) in
    run env = check.RunOk result
    /\ check.CheckResult.ShouldAlert result = true
    /\ name = check.Check.Name c
    /\ h = state.Hash (check.Alert.Title alert) (check.Alert.Message alert)
    /\ notifier.Send (notifier s) alert = None
    /\ calls o = [CallRun name (check.RunOk result);
                  CallShouldAlert name h true;
                  CallSend alert None;
                  CallMarkAlerted name h ret].
Proof.
  intros Hexec Hin.
  outcome_cases Hexec;
    repeat (destruct Hin as [Hin|Hin]; try discriminate Hin); try contradiction.
  injection Hin as <- <- <-.
  repeat match goal with
         | Hn : negb ?x = false |- _ => apply negb_false_iff in Hn; subst
         end.
  eexists. simpl. repeat split; eauto.
Qed.

Lemma X10_MarkAlerted_only_after_delivery_witness :
  exists result,
    scheduler.run (sample.returns sample.down) = check.RunOk result
    /\ check.CheckResult.ShouldAlert result = true.
Proof.
  destruct (X10_MarkAlerted_only_after_delivery
              (New sample.stdout sample.empty_memory)
              (sample.returns sample.down) sample.site_up sample.initial
              sample.delivered "site-up" sample.down_hash None)
    as (result & H1 & H2 & _).
  - reflexivity.
  - simpl. tauto.
  - exists result. split; [exact H1 | exact H2].
Defined.

(** An execution returns whenever the failure count is a valid count below
    the largest [int]; its first call is the probe and its only one. *)
Lemma executeCheck_returns s env c b :
  0 <= consecutiveFailures b < 2 ^ 63 - 1 ->
  exists o rest,
    executeCheck s env c b = Some o
    /\ 0 <= consecutiveFailures (backoff o) <= consecutiveFailures b + 1
    /\ calls o = CallRun (check.Check.Name c) (run env) :: rest
    /\ List.filter is_run rest = [].
Proof.
  intros Hcf. destruct (run env) as [err|result] eqn:Hrun.
  - rewrite (executeCheck_error s env c b err Hrun Hcf).
    eexists _, _. split; [reflexivity|]. simpl. split; [lia|]. split; reflexivity.
  - unfold executeCheck. rewrite Hrun.
    repeat match goal with
           | |- context [match ?x with _ => _ end] => destruct x
           end;
      (eexists _, _; split; [reflexivity|]; simpl; split; [lia|]; split; reflexivity).
Qed.

Lemma loop_returns (envs : list Env) s c b (ws : list Z) (l : list Call) :
  0 <= consecutiveFailures b ->
  consecutiveFailures b + Z.of_nat (length envs) < 2 ^ 63 - 1 ->
  exists t l',
    loop s c b envs ws l = Some t
    /\ length (waits t) = (length ws + length envs)%nat
    /\ (Forall (fun w => w <= time.Hour) ws -> Forall (fun w => w <= time.Hour) (waits t))
    /\ log t = l ++ l'
    /\ length (List.filter is_run l') = length envs.
Proof.
  revert s b ws l.
  induction envs as [|env envs IH]; intros s b ws l Hcf Hlen; simpl.
  - eexists _, []. split; [reflexivity|]. simpl.
    split; [lia|]. split; [auto|]. split; [now rewrite app_nil_r | reflexivity].
  - simpl length in Hlen. rewrite Nat2Z.inj_succ in Hlen.
    destruct (executeCheck_returns s env c b) as (o & rest & Ho & Hb & Hcalls & Hrest); [lia|].
    rewrite Ho.
    destruct (IH (after o) (backoff o) (ws ++ [interval c b]) (l ++ calls o))
      as (t & l' & Ht & Hw & Hall & Hlog & Hruns); [lia | lia |].
    exists t, (calls o ++ l'). split; [exact Ht|].
    split; [rewrite Hw, length_app; simpl; lia|].
    split.
    { intros Hws. apply Hall. apply Forall_app. split; [exact Hws|].
      constructor; [apply interval_le_max | constructor]. }
    split; [now rewrite Hlog, app_assoc|].
    rewrite List.filter_app, length_app, Hruns, Hcalls. simpl. rewrite Hrest. reflexivity.
Qed.

(** X11: [runCheck] does not panic, whatever probes, ledger and notifier
    answer, for any number of rounds below 2^63 - 2.  It executes the check
    once at the start and once per round, computes one wait per round, and
    no wait is above one hour. *)
Theorem X11_runCheck_returns s c (env0 : Env) (envs : list Env) :
  Z.of_nat (length envs) < 2 ^ 63 - 2 ->
  exists t,
    runCheck s c env0 envs = Some t
    /\ head (log t) = Some (CallRun (check.Check.Name c) (run env0))
    /\ length (List.filter is_run (log t)) = S (length envs)
    /\ length (waits t) = length envs
    /\ Forall (fun w => w <= time.Hour) (waits t).
Proof.
  intros Hlen. unfold runCheck.
  destruct (executeCheck_returns s env0 c
              {| backoffMultiplier := 1; consecutiveFailures := 0 |})
    as (o & rest & Ho & Hb & Hcalls & Hrest); [simpl; lia|].
  rewrite Ho. simpl in Hb.
  destruct (loop_returns envs (after o) c (backoff o) [] (calls o))
    as (t & l' & Ht & Hw & Hall & Hlog & Hruns); [lia | lia |].
  exists t. split; [exact Ht|].
  split; [now rewrite Hlog, Hcalls|].
  split.
  { rewrite Hlog, List.filter_app, length_app, Hruns, Hcalls. simpl.
    now rewrite Hrest. }
  split; [exact Hw|]. apply Hall. constructor.
Qed.

Lemma X11_runCheck_returns_witness :
  exists t,
    runCheck (New sample.stdout sample.empty_memory) sample.site_up
             (sample.returns sample.down) [sample.fails; sample.returns sample.up] = Some t
    /\ length (waits t) = 2%nat.
Proof.
  destruct (X11_runCheck_returns (New sample.stdout sample.empty_memory) sample.site_up
              (sample.returns sample.down) [sample.fails; sample.returns sample.up])
    as (t & H1 & _ & _ & H4 & _).
  - simpl. lia.
  - exists t. split; [exact H1 | exact H4].
Defined.

(** A streak of failed probes of any length: the failure count follows the
    number of executions and the multiplier is computed from it with
    wrap-around. *)
Lemma loop_failures_wrap (envs : list Env) s c b (ws : list Z) (l : list Call) :
  Forall failing envs ->
  0 <= consecutiveFailures b ->
  consecutiveFailures b + Z.of_nat (length envs) < 2 ^ 63 - 1 ->
  backoffMultiplier b
  = Z.min (wrap64 (2 ^ consecutiveFailures b)) maxBackoffMultiplier ->
  exists t,
    loop s c b envs ws l = Some t
    /\ final t = s
    /\ consecutiveFailures (final_backoff t)
       = consecutiveFailures b + Z.of_nat (length envs)
    /\ backoffMultiplier (final_backoff t)
       = Z.min (wrap64 (2 ^ consecutiveFailures (final_backoff t))) maxBackoffMultiplier.
Proof.
  revert b ws l.
  induction envs as [|env envs IH]; intros b ws l Hall Hcf Hlen Hinv; simpl.
  - eexists. split; [reflexivity|]. simpl. split; [reflexivity|]. split; [lia|exact Hinv].
  - inversion Hall as [|? ? [err Hrun] Hall']; subst.
    simpl length in Hlen. rewrite Nat2Z.inj_succ in Hlen.
    rewrite (executeCheck_error s env c b err Hrun) by lia. simpl.
    edestruct (IH {| backoffMultiplier :=
                       Z.min (wrap64 (2 ^ (consecutiveFailures b + 1))) maxBackoffMultiplier;
                     consecutiveFailures := consecutiveFailures b + 1 |})
      as (t & Ht & Hs & Hc & Hm); [exact Hall' | simpl; lia | simpl; lia | reflexivity |].
    exists t. split; [exact Ht|]. split; [exact Hs|]. simpl in Hc.
    split; [rewrite Nat2Z.inj_succ; lia | exact Hm].
Qed.

(** X12: once a check has failed 64 times in a row or more, the multiplier
    is 0 and so is the wait before the next execution, whatever the base
    interval: [1 << failures] has wrapped around to 0 before the cap of 32
    is applied. *)
Theorem X12_no_wait_from_64_failures s c (env0 : Env) (envs : list Env) :
  Forall failing (env0 :: envs) ->
  let N := Z.of_nat (length (env0 :: envs)) in
  64 <= N < 2 ^ 63 - 1 ->
  exists t,
    runCheck s c env0 envs = Some t
    /\ final t = s
    /\ consecutiveFailures (final_backoff t) = N
    /\ backoffMultiplier (final_backoff t) = 0
    /\ interval c (final_backoff t) = 0.
Proof.
  intros Hall N HN. subst N. simpl length in *. rewrite Nat2Z.inj_succ in *.
  inversion Hall as [|? ? [err Hrun] Hall']; subst.
  unfold runCheck.
  rewrite (executeCheck_error s env0 c _ err Hrun) by (simpl; lia). simpl.
  edestruct (loop_failures_wrap envs s c
               {| backoffMultiplier := Z.min (wrap64 (2 ^ (0 + 1))) maxBackoffMultiplier;
                  consecutiveFailures := 0 + 1 |} []
               [CallRun (check.Check.Name c) (check.RunErr err)])
    as (t & Ht & Hs & Hc & Hm); [exact Hall' | simpl; lia | simpl; lia | reflexivity |].
  simpl in Hc.
  exists t. split; [exact Ht|]. split; [exact Hs|]. split; [lia|].
  rewrite wrap64_pow2_ge_64 in Hm by lia.
  split; [exact Hm|].
  unfold interval. rewrite Hm, Z.mul_0_r. reflexivity.
Qed.

Lemma X12_no_wait_from_64_failures_witness :
  exists t,
    runCheck (New sample.stdout sample.empty_memory) sample.site_up
             sample.fails (repeat sample.fails 63) = Some t
    /\ interval sample.site_up (final_backoff t) = 0.
Proof.
  destruct (X12_no_wait_from_64_failures (New sample.stdout sample.empty_memory)
              sample.site_up sample.fails (repeat sample.fails 63))
    as (t & H1 & _ & _ & _ & H5).
  - apply List.Forall_forall. intros env Hin.
    assert (env = sample.fails) as ->
        by (destruct Hin as [<-|Hin]; [reflexivity | exact (repeat_spec _ _ _ Hin)]).
    eexists. reflexivity.
  - vm_compute. split; [discriminate | reflexivity].
  - exists t. split; [exact H1 | exact H5].
Defined.

(** X13: whatever the backoff was, an execution whose probe returns a
    result does not panic and resets the multiplier to 1 and the failure
    count to 0, so that the next wait is the base interval, capped at one
    hour. *)
Theorem X13_success_resets_the_wait s env c b result :
  run env = check.RunOk result ->
  - 2 ^ 63 <= check.Check.Interval c < 2 ^ 63 ->
  exists o,
    executeCheck s env c b = Some o
    /\ backoff o = {| backoffMultiplier := 1; consecutiveFailures := 0 |}
    /\ interval c (backoff o) = Z.min (check.Check.Interval c) time.Hour.
Proof.
  intros Hrun Hint.
  destruct (executeCheck_success_returns s env c b result Hrun) as [o Ho].
  pose proof (executeCheck_success_resets s env c b result o Hrun Ho) as Hb.
  exists o. split; [exact Ho|]. split; [exact Hb|].
  rewrite Hb, interval_no_overflow; simpl; rewrite Z.mul_1_r; [reflexivity | exact Hint].
Qed.

Lemma X13_success_resets_the_wait_witness :
  exists o,
    executeCheck (New sample.stdout sample.empty_memory) (sample.returns sample.up)
                 sample.site_up {| backoffMultiplier := 32; consecutiveFailures := 9 |}
    = Some o
    /\ interval sample.site_up (backoff o) = Z.min time.Minute time.Hour.
Proof.
  destruct (X13_success_resets_the_wait (New sample.stdout sample.empty_memory)
              (sample.returns sample.up) sample.site_up
              {| backoffMultiplier := 32; consecutiveFailures := 9 |} sample.up)
    as (o & H1 & _ & H3).
  - reflexivity.
  - vm_compute. split; [discriminate | reflexivity].
  - exists o. split; [exact H1 | exact H3].
Defined.

(** A failed write leaves the ledger as it was. *)
Lemma MarkAlerted_failed (st : state.State) io now name h st' e :
  state.MarkAlerted st io now name h = (st', Some e) -> st' = st.
Proof.
  destruct st as [m|sq]; simpl; [discriminate|].
  unfold state.SQLite.MarkAlerted. destruct io; [|discriminate]. congruence.
Qed.

(** X14: when [MarkAlerted] fails after the alert has been sent, the
    scheduler and its ledger are as before the execution; the next
    execution in which the probe returns the same result and the lookup is
    answered in the same way hands the same condition to the notifier
    again. *)
Theorem X14_failed_MarkAlerted_repeats_the_alert s env c b o name h e :
  executeCheck s env c b = Some o ->
  In (CallMarkAlerted name h (Some e)) (calls o) ->
  after o = s
  /\ forall env' b',
       run env' = run env -> query_io env' = query_io env ->
       exists o' alert ret,
         executeCheck (after o) env' c b' = Some o'
         /\ In (CallSend alert ret) (calls o')
         /\ state.Hash (check.Alert.Title alert) (check.Alert.Message alert) = h.
Proof.
  intros Hexec Hin.
  outcome_cases Hexec;
    repeat (destruct Hin as [Hin|Hin]; try discriminate Hin); try contradiction.
  injection Hin as <- <- ->.
  repeat match goal with
         | Hn : negb ?x = false |- _ => apply negb_false_iff in Hn; subst
         end.
  match goal with
  | Hs : state.ShouldAlert ?st ?io ?n ?h' = (?st', true) |- _ =>
      pose proof (ShouldAlert_fst st io n h') as Hf;
      pose proof (f_equal snd Hs) as Hsnd; rewrite Hs in Hf; simpl in Hf, Hsnd; subst st'
  end.
  match goal with
  | Hm : state.MarkAlerted _ _ _ _ _ = _ |- _ => apply MarkAlerted_failed in Hm; subst
  end.
  rewrite with_state_same. split; [reflexivity|].
  intros env' b' Hrun Hq.
  match goal with
  | Hr : run env = check.RunOk ?result |- _ =>
      destruct (permitted_sent s env' c b' result) as (o' & ret & Ho' & Hin');
      [congruence | assumption | rewrite Hq; exact Hsnd |]
  end.
  eexists o', _, ret. split; [exact Ho'|]. split; [exact Hin' | reflexivity].
Qed.

Lemma X14_failed_MarkAlerted_repeats_the_alert_witness :
  exists o,
    executeCheck (New sample.stdout sample.empty_sqlite)
                 (sample.returns_exec_fails sample.down) sample.site_up sample.initial
    = Some o
    /\ after o = New sample.stdout sample.empty_sqlite.
Proof.
  eexists. split; [vm_compute; reflexivity|].
  refine (proj1 (X14_failed_MarkAlerted_repeats_the_alert
                   (New sample.stdout sample.empty_sqlite)
                   (sample.returns_exec_fails sample.down) sample.site_up sample.initial
                   _ "site-up" sample.down_hash "upsert alert state: disk I/O error" _ _)).
  - vm_compute. reflexivity.
  - simpl. tauto.
Defined.

End Rounds.

(* ===================================================================== *)
(** * Strings                                                            *)
(* ===================================================================== *)

Section StringFacts.

Local Arguments String.append _ _ : simpl nomatch.

Implicit Types (s t u p x : string).

Lemma append_length s t :
  String.length (s +:+ t) = (String.length s + String.length t)%nat.
Proof. induction s as [|c s IH]; simpl; [reflexivity|]. now rewrite IH. Qed.

Lemma append_assoc s t u : (s +:+ t) +:+ u = s +:+ (t +:+ u).
Proof. induction s as [|c s IH]; simpl; [reflexivity|]. now rewrite IH. Qed.

Lemma append_nil_r s : s +:+ "" = s.
Proof. induction s as [|c s IH]; simpl; [reflexivity|]. now rewrite IH. Qed.

Lemma chars_append s t :
  list_ascii_of_string (s +:+ t) = list_ascii_of_string s ++ list_ascii_of_string t.
Proof. induction s as [|c s IH]; simpl; [reflexivity|]. now rewrite IH. Qed.

Lemma prefix_append p s : String.prefix p (p +:+ s) = true.
Proof.
  induction p as [|c p IH]; simpl; [now destruct s|].
  destruct (ascii_dec c c); [exact IH | congruence].
Qed.

Lemma prefix_split p s : String.prefix p s = true -> exists rest, s = p +:+ rest.
Proof.
  revert s. induction p as [|c p IH]; intros s H; simpl; [now exists s|].
  destruct s as [|d s]; simpl in H; [discriminate|].
  destruct (ascii_dec c d) as [->|]; [|discriminate].
  destruct (IH s H) as [rest ->]. now exists rest.
Qed.

Lemma substring_all s : String.substring 0 (String.length s) s = s.
Proof. induction s as [|c s IH]; simpl; [reflexivity|]. now rewrite IH. Qed.

Lemma substring_append_l s x : String.substring 0 (String.length s) (s +:+ x) = s.
Proof.
  induction s as [|c s IH]; simpl; [now destruct x|]. now rewrite IH.
Qed.

Lemma substring_append_r s x :
  String.substring (String.length s) (String.length x) (s +:+ x) = x.
Proof. induction s as [|c s IH]; simpl; [apply substring_all | exact IH]. Qed.

Lemma TrimSuffix_append s x : strings.TrimSuffix (s +:+ x) x = s.
Proof.
  unfold strings.TrimSuffix, strings.HasSuffix. rewrite append_length.
  replace (String.length s + String.length x - String.length x)%nat
    with (String.length s) by lia.
  rewrite substring_append_r, String.eqb_refl, substring_append_l.
  destruct (Nat.leb_spec (String.length x) (String.length s + String.length x));
    [reflexivity | lia].
Qed.

Lemma TrimPrefix_append p s : strings.TrimPrefix (p +:+ s) p = s.
Proof.
  unfold strings.TrimPrefix, strings.HasPrefix. rewrite prefix_append, append_length.
  replace (String.length p + String.length s - String.length p)%nat
    with (String.length s) by lia.
  apply substring_append_r.
Qed.

End StringFacts.

(* ===================================================================== *)
(** * Environment variables in the configuration text                    *)
(* ===================================================================== *)

Section Expansion.

Local Arguments String.append _ _ : simpl nomatch.

Local Abbreviation chars := list_ascii_of_string.

Variable getenv : string -> string.

Lemma replaceAll_skip (re : regexp.Regexp) (repl : string -> string) (p s : string) :
  regexp.replaceAll re (String.length p) (p +:+ s) repl = regexp.replaceAll re 0 s repl.
Proof. induction p as [|c p IH]; simpl; [reflexivity | exact IH]. Qed.

Lemma until_brace_split (s name : string) :
  config.until_brace s = Some name -> exists rest, s = name +:+ "}" +:+ rest.
Proof.
  revert name. induction s as [|c s IH]; intros name H; simpl in H; [discriminate|].
  destruct (Ascii.eqb_spec c "}") as [->|Hc].
  - injection H as <-. now exists s.
  - destruct (config.until_brace s) as [n|]; [|discriminate].
    injection H as <-. destruct (IH n eq_refl) as [rest ->]. now exists rest.
Qed.

Lemma until_brace_append (name post : string) :
  ~ In "}"%char (chars name) ->
  config.until_brace (name +:+ String "}" post) = Some name.
Proof.
  induction name as [|c name IH]; intros Hno; simpl; [reflexivity|].
  destruct (Ascii.eqb_spec c "}") as [->|Hc]; [exfalso; apply Hno; now left|].
  rewrite IH; [reflexivity|]. intros Hin. apply Hno. now right.
Qed.

(** A match is a non-empty prefix of the input. *)
Lemma envVarPattern_prefix (s m : string) :
  config.envVarPattern s = Some m ->
  exists c m' rest, m = String c m' /\ s = m +:+ rest.
Proof.
  unfold config.envVarPattern. intros H.
  destruct s as [|c1 [|c2 s]]; try discriminate.
  destruct (Ascii.eqb_spec c1 "$") as [->|]; [|discriminate].
  destruct (Ascii.eqb_spec c2 "{") as [->|]; [|discriminate]. simpl in H.
  destruct (config.until_brace s) as [[|c name]|] eqn:Hu; try discriminate.
  injection H as <-. destruct (until_brace_split _ _ Hu) as [rest ->].
  eexists _, _, rest. split; [reflexivity|]. simpl. now rewrite append_assoc.
Qed.

Lemma envVarPattern_no_dollar (c : ascii) (s : string) :
  c <> "$"%char -> config.envVarPattern (String c s) = None.
Proof.
  intros Hc. unfold config.envVarPattern. destruct s as [|c2 s]; [reflexivity|].
  destruct (Ascii.eqb_spec c "$"); [contradiction | reflexivity].
Qed.

Lemma envVarPattern_variable (name post : string) :
  name <> "" -> ~ In "}"%char (chars name) ->
  config.envVarPattern ("${" +:+ name +:+ "}" +:+ post) = Some ("${" +:+ name +:+ "}").
Proof.
  intros Hne Hno. unfold config.envVarPattern. simpl.
  rewrite until_brace_append by exact Hno.
  destruct name as [|c name]; [contradiction | reflexivity].
Qed.

Lemma replaceAll_unchanged (repl : string -> string) :
  (forall m, repl m = m) ->
  forall s, regexp.replaceAll config.envVarPattern 0 s repl = s.
Proof.
  intros Hid s. remember (String.length s) as n eqn:Hn. revert s Hn.
  induction n as [n IH] using lt_wf_ind. intros s ->.
  destruct s as [|c s]; simpl; [reflexivity|].
  change (match config.envVarPattern (String c s) with
          | Some m => repl m +:+ regexp.replaceAll config.envVarPattern
                                   (String.length m - 1) s repl
          | None => String c (regexp.replaceAll config.envVarPattern 0 s repl)
          end = String c s).
  destruct (config.envVarPattern (String c s)) as [m|] eqn:E.
  - destruct (envVarPattern_prefix _ _ E) as (c' & m' & rest & -> & Hs).
    rewrite Hid. simpl in Hs. injection Hs as <- ->.
    replace (String.length (String c m') - 1)%nat with (String.length m')
      by (simpl; lia).
    rewrite replaceAll_skip.
    rewrite (IH (String.length rest)); [reflexivity | | reflexivity].
    simpl. rewrite append_length. lia.
  - f_equal. apply (IH (String.length s)); [simpl; lia | reflexivity].
Qed.

Lemma replaceAll_no_dollar (repl : string -> string) (s : string) :
  ~ In "$"%char (chars s) ->
  regexp.replaceAll config.envVarPattern 0 s repl = s.
Proof.
  induction s as [|c s IH]; intros Hno; [reflexivity|].
  change (match config.envVarPattern (String c s) with
          | Some m => repl m +:+ regexp.replaceAll config.envVarPattern
                                   (String.length m - 1) s repl
          | None => String c (regexp.replaceAll config.envVarPattern 0 s repl)
          end = String c s).
  rewrite envVarPattern_no_dollar by (intros ->; apply Hno; now left).
  rewrite IH; [reflexivity|]. intros Hin. apply Hno. now right.
Qed.

Lemma replaceAll_match (re : regexp.Regexp) (repl : string -> string)
      (c : ascii) (m' post : string) :
  re (String c (m' +:+ post)) = Some (String c m') ->
  regexp.replaceAll re 0 (String c (m' +:+ post)) repl
  = repl (String c m') +:+ regexp.replaceAll re 0 post repl.
Proof.
  intros Hm. simpl. rewrite Hm.
  replace (String.length (String c m') - 1)%nat with (String.length m')
    by (simpl; lia).
  now rewrite replaceAll_skip.
Qed.

(** The variable name that [expandEnvVars] extracts from a match. *)
Lemma varName_of_match (name : string) :
  strings.TrimPrefix (strings.TrimSuffix ("${" +:+ name +:+ "}") "}") "${" = name.
Proof.
  rewrite <- (append_assoc "${" name "}").
  now rewrite TrimSuffix_append, TrimPrefix_append.
Qed.

(** X15: a text without a dollar sign is left as it is, and so is every
    text when no variable is set (or all are set to the empty string). *)
Theorem X15_expandEnvVars_leaves_text_alone (s : string) :
  (forall name, getenv name = "") \/ ~ In "$"%char (chars s) ->
  config.expandEnvVars getenv s = s.
Proof.
  unfold config.expandEnvVars, regexp.ReplaceAllStringFunc.
  intros [Hunset | Hno].
  - apply replaceAll_unchanged. intros m. now rewrite Hunset.
  - now apply replaceAll_no_dollar.
Qed.

(** X16: the first reference [${name}] of a text is replaced by the value
    of the variable when that value is not empty and is kept otherwise;
    the text before it is copied, the value is not expanded again, and
    the expansion goes on behind the closing brace. *)
Theorem X16_expandEnvVars_substitutes (pre name post : string) :
  ~ In "$"%char (chars pre) ->
  name <> "" ->
  ~ In "}"%char (chars name) ->
  config.expandEnvVars getenv (pre +:+ "${" +:+ name +:+ "}" +:+ post)
  = pre
    +:+ (if String.eqb (getenv name) "" then "${" +:+ name +:+ "}" else getenv name)
    +:+ config.expandEnvVars getenv post.
Proof.
  intros Hpre Hne Hno.
  unfold config.expandEnvVars, regexp.ReplaceAllStringFunc.
  set (repl := fun match_ : string => _).
  induction pre as [|c pre IH].
  - pose proof (envVarPattern_variable name post Hne Hno) as Hm.
    pose proof (replaceAll_match config.envVarPattern repl "$"
                  (String "{" (name +:+ "}")) post) as Hstep.
    simpl in Hm, Hstep |- *. rewrite append_assoc in Hstep. simpl in Hstep.
    rewrite Hstep by exact Hm. f_equal.
    subst repl. simpl.
    pose proof (varName_of_match name) as Hname. simpl in Hname. rewrite Hname.
    now destruct (String.eqb (getenv name) "").
  - simpl.
    change (match config.envVarPattern
                    (String c (pre +:+ "${" +:+ name +:+ "}" +:+ post)) with
            | Some m => repl m +:+ regexp.replaceAll config.envVarPattern
                                     (String.length m - 1)
                                     (pre +:+ "${" +:+ name +:+ "}" +:+ post) repl
            | None => String c (regexp.replaceAll config.envVarPattern 0
                                  (pre +:+ "${" +:+ name +:+ "}" +:+ post) repl)
            end = String c (pre +:+ (if String.eqb (getenv name) ""
                                     then "${" +:+ name +:+ "}" else getenv name)
                                +:+ regexp.replaceAll config.envVarPattern 0 post repl)).
    rewrite envVarPattern_no_dollar by (intros ->; apply Hpre; now left).
    rewrite IH; [reflexivity|]. intros Hin. apply Hpre. now right.
Qed.

End Expansion.

Lemma X15_expandEnvVars_leaves_text_alone_witness :
  config.expandEnvVars (fun _ => "") "topic: ${NTFY_TOPIC}" = "topic: ${NTFY_TOPIC}".
Proof.
  apply (X15_expandEnvVars_leaves_text_alone (fun _ => "") "topic: ${NTFY_TOPIC}").
  left. intros name. reflexivity.
Defined.

Lemma X16_expandEnvVars_substitutes_witness :
  config.expandEnvVars fixtures.getenv "topic: ${NTFY_TOPIC}, title: ${TITLE}"
  = "topic: alerts" +:+ config.expandEnvVars fixtures.getenv ", title: ${TITLE}".
Proof.
  refine (X16_expandEnvVars_substitutes fixtures.getenv "topic: " "NTFY_TOPIC"
            ", title: ${TITLE}" _ _ _).
  - simpl. intros H. repeat (destruct H as [H|H]; [discriminate H|]). exact H.
  - discriminate.
  - simpl. intros H. repeat (destruct H as [H|H]; [discriminate H|]). exact H.
Defined.

(* ===================================================================== *)
(** * Validation of the configuration                                    *)
(* ===================================================================== *)

Section Validation.

Import config.

Local Arguments String.append _ _ : simpl nomatch.

(** What [Validate] requires of one notification channel. *)
Local Abbreviation acceptable :=
  (fun n : NotificationConfig.t =>
     NotificationConfig.Type_ n = "stdout"
     \/ (NotificationConfig.Type_ n = "ntfy" /\ NotificationConfig.Topic n <> "")
     \/ (NotificationConfig.Type_ n = "twilio"
         /\ NotificationConfig.AccountSID n <> ""
         /\ NotificationConfig.AuthToken n <> ""
         /\ NotificationConfig.From n <> ""
         /\ NotificationConfig.To n <> "")
     \/ (NotificationConfig.Type_ n = "sendgrid"
         /\ NotificationConfig.APIKey n <> ""
         /\ NotificationConfig.From n <> ""
         /\ NotificationConfig.To n <> "")).

Ltac string_tests :=
  repeat match goal with
         | H : context [String.eqb ?x ?y] |- _ =>
             destruct (String.eqb_spec x y); simpl in H
         | |- context [String.eqb ?x ?y] =>
             destruct (String.eqb_spec x y); simpl
         end.

Lemma range_head (i : nat) (n : NotificationConfig.t) (rest : list NotificationConfig.t) :
  (acceptable n /\ range i (n :: rest) = range (S i) rest)
  \/ (~ acceptable n
      /\ exists reason,
          range i (n :: rest) = Some ("notification[" +:+ pretty i +:+ "]: " +:+ reason)).
Proof.
  simpl range.
  destruct (String.eqb_spec (NotificationConfig.Type_ n) "stdout") as [Ht|Hstdout];
    [left; split; [tauto | reflexivity]|].
  destruct (String.eqb_spec (NotificationConfig.Type_ n) "ntfy") as [Ht|Hntfy].
  { destruct (String.eqb_spec (NotificationConfig.Topic n) "") as [He|Hne].
    - right. split; [|eexists; reflexivity].
      intros [H|[H|[H|H]]]; destruct H; congruence.
    - left. split; [tauto | reflexivity]. }
  destruct (String.eqb_spec (NotificationConfig.Type_ n) "twilio") as [Ht|Htwilio].
  { destruct (String.eqb_spec (NotificationConfig.AccountSID n) "");
      [|destruct (String.eqb_spec (NotificationConfig.AuthToken n) "");
        [|destruct (String.eqb_spec (NotificationConfig.From n) "");
          [|destruct (String.eqb_spec (NotificationConfig.To n) "")]]]; simpl;
      try (left; split; [tauto | reflexivity]);
      (right; split; [|eexists; reflexivity]);
      intros [H|[H|[H|H]]]; destruct H; try congruence; tauto. }
  destruct (String.eqb_spec (NotificationConfig.Type_ n) "sendgrid") as [Ht|Hsendgrid].
  { destruct (String.eqb_spec (NotificationConfig.APIKey n) "");
      [|destruct (String.eqb_spec (NotificationConfig.From n) "");
        [|destruct (String.eqb_spec (NotificationConfig.To n) "")]]; simpl;
      try (left; split; [tauto | reflexivity]);
      (right; split; [|eexists; reflexivity]);
      intros [H|[H|[H|H]]]; destruct H; try congruence; tauto. }
  right. split; [|eexists; reflexivity].
  intros [H|[H|[H|H]]]; destruct H; congruence.
Qed.

Lemma range_accepts (i : nat) (ns : list NotificationConfig.t) :
  range i ns = None <-> Forall acceptable ns.
Proof.
  revert i. induction ns as [|n ns IH]; intros i; [split; [constructor | reflexivity]|].
  destruct (range_head i n ns) as [[Hok ->] | [Hbad [reason ->]]].
  - rewrite IH. split; [now constructor | intros H; now inversion H].
  - split; [discriminate | intros H; inversion H; contradiction].
Qed.

Lemma range_rejects (j : nat) (ns : list NotificationConfig.t) (err : error) :
  range j ns = Some err ->
  exists i n reason,
    ns !! i = Some n
    /\ Forall acceptable (take i ns)
    /\ ~ acceptable n
    /\ err = "notification[" +:+ pretty (j + i)%nat +:+ "]: " +:+ reason.
Proof.
  revert j. induction ns as [|n ns IH]; intros j H; [discriminate|].
  destruct (range_head j n ns) as [[Hok Hr] | [Hbad [reason Hr]]]; rewrite Hr in H.
  - destruct (IH _ H) as (i & n' & reason & Hn & Hall & Hbad & ->).
    exists (S i), n', reason. split; [exact Hn|]. split; [now constructor|].
    split; [exact Hbad|]. now rewrite Nat.add_succ_r.
  - injection H as <-. exists 0%nat, n, reason. split; [reflexivity|].
    split; [constructor|]. split; [exact Hbad|]. now rewrite Nat.add_0_r.
Qed.

(** X17: a configuration that [Validate] accepts comes back with the state
    type ["memory"] or ["sqlite"], the latter with a database path, an
    empty state type having been replaced by ["memory"] and nothing else
    changed; every notification channel has a known type and the fields
    that its type requires; validating it again accepts it unchanged. *)
Theorem X17_Validate_accepted (c c' : Config.t) :
  Validate c = (c', None) ->
  (StateConfig.Type_ (Config.State c') = "memory"
   \/ (StateConfig.Type_ (Config.State c') = "sqlite"
       /\ StateConfig.DBPath (Config.State c') <> ""))
  /\ c' = (if String.eqb (StateConfig.Type_ (Config.State c)) ""
           then with_state_type c "memory" else c)
  /\ Forall acceptable (Config.Notifications c')
  /\ Validate c' = (c', None).
Proof.
  unfold Validate. intros H.
  destruct (String.eqb_spec (StateConfig.Type_ (Config.State c)) "memory") as [Hm|Hm];
    [|destruct (String.eqb_spec (StateConfig.Type_ (Config.State c)) "sqlite") as [Hs|Hs];
      [|destruct (String.eqb_spec (StateConfig.Type_ (Config.State c)) "") as [He|He]]];
    simpl in H.
  - rewrite Hm in H. simpl in H. injection H as <- H.
    rewrite Hm. simpl. rewrite Hm. simpl.
    split; [now left|]. split; [reflexivity|]. split; [now apply (range_accepts 0)|].
    now rewrite H.
  - rewrite Hs in H. simpl in H.
    destruct (String.eqb_spec (StateConfig.DBPath (Config.State c)) "") as [Hd|Hd];
      simpl in H; [discriminate|].
    injection H as <- H.
    rewrite Hs. simpl. rewrite Hs. simpl.
    destruct (String.eqb_spec (StateConfig.DBPath (Config.State c)) ""); [contradiction|].
    simpl. split; [now right|]. split; [reflexivity|].
    split; [now apply (range_accepts 0)|]. now rewrite H.
  - simpl in H. injection H as <- H. simpl.
    split; [now left|]. split; [reflexivity|]. split; [now apply (range_accepts 0)|].
    now rewrite H.
  - discriminate.
Qed.

Lemma X17_Validate_accepted_witness :
  Validate (with_state_type
              (fixtures.configuration [fixtures.stdout; fixtures.ntfy "alerts"]) "memory")
  = (with_state_type
       (fixtures.configuration [fixtures.stdout; fixtures.ntfy "alerts"]) "memory",
     None).
Proof.
  refine (proj2 (proj2 (proj2 (X17_Validate_accepted
                                 (fixtures.configuration
                                    [fixtures.stdout; fixtures.ntfy "alerts"]) _ _)))).
  vm_compute. reflexivity.
Defined.

(** X18: an error of [Validate] is about the state type, about the missing
    database path, or about one notification channel: the first one, in
    the order of the configuration, that has an unknown type or lacks a
    field its type requires; the message names its index, counted from 0. *)
Theorem X18_Validate_reports_first_offender (c : Config.t) (err : error) :
  snd (Validate c) = Some err ->
  err = "unknown state type: " +:+ StateConfig.Type_ (Config.State c)
  \/ err = "sqlite state requires db_path"
  \/ exists i n reason,
       Config.Notifications c !! i = Some n
       /\ Forall acceptable (take i (Config.Notifications c))
       /\ ~ acceptable n
       /\ err = "notification[" +:+ pretty i +:+ "]: " +:+ reason.
Proof.
  unfold Validate. intros H.
  assert (Hrange : forall c0 : Config.t,
             Config.Notifications c0 = Config.Notifications c ->
             range 0 (Config.Notifications c0) = Some err ->
             exists i n reason,
               Config.Notifications c !! i = Some n
               /\ Forall acceptable (take i (Config.Notifications c))
               /\ ~ acceptable n
               /\ err = "notification[" +:+ pretty i +:+ "]: " +:+ reason).
  { intros c0 Hsame Hr. rewrite Hsame in Hr.
    destruct (range_rejects 0 _ _ Hr) as (i & n & reason & ?); eauto. }
  destruct (String.eqb (StateConfig.Type_ (Config.State c)) "memory"
            || String.eqb (StateConfig.Type_ (Config.State c)) "sqlite") eqn:Hknown.
  - destruct (String.eqb (StateConfig.Type_ (Config.State c)) "sqlite"
              && String.eqb (StateConfig.DBPath (Config.State c)) ""); simpl in H.
    + injection H as <-. right. now left.
    + right. right. now apply (Hrange c).
  - destruct (String.eqb_spec (StateConfig.Type_ (Config.State c)) "") as [He|He];
      simpl in H.
    + right. right. now apply (Hrange (with_state_type c "memory")).
    + injection H as <-. now left.
Qed.

Lemma X18_Validate_reports_first_offender_witness :
  exists i n reason,
    [fixtures.stdout; fixtures.ntfy ""] !! i = Some n
    /\ "notification[1]: ntfy requires topic"
       = "notification[" +:+ pretty i +:+ "]: " +:+ reason.
Proof.
  destruct (X18_Validate_reports_first_offender
              (fixtures.configuration [fixtures.stdout; fixtures.ntfy ""])
              "notification[1]: ntfy requires topic")
    as [H | [H | (i & n & reason & Hn & _ & _ & Herr)]].
  - vm_compute. reflexivity.
  - discriminate H.
  - discriminate H.
  - exists i, n, reason. split; [exact Hn | exact Herr].
Defined.

End Validation.

(* ===================================================================== *)
(** * The classification of content                                      *)
(* ===================================================================== *)

Section Content.

Import claude.

Implicit Types (content : list Z).

Lemma null_byte_spec content (fuel : nat) (i bound : Z) :
  0 <= i -> bound <= len content ->
  null_byte fuel i bound content = true
  <-> exists k, i <= k < bound /\ k < i + Z.of_nat fuel
                /\ content !! Z.to_nat k = Some 0.
Proof.
  intros Hi Hb. revert i Hi.
  induction fuel as [|fuel IH]; intros i Hi; simpl null_byte.
  - split; [discriminate | intros (k & ? & ? & _); lia].
  - destruct (Z.ltb_spec i bound) as [Hlt|Hge];
      [|split; [discriminate | intros (k & ? & ? & _); lia]].
    destruct (content !! Z.to_nat i) as [b|] eqn:Hlook.
    + destruct (Z.eqb_spec b 0) as [->|Hb0].
      * split; [intros _ | reflexivity]. exists i. repeat split; try lia. exact Hlook.
      * rewrite IH by lia. split.
        -- intros (k & ? & ? & Hk). exists k. repeat split; try lia. exact Hk.
        -- intros (k & ? & ? & Hk).
           destruct (Z.eq_dec k i) as [->|Hne]; [congruence|].
           exists k. repeat split; try lia. exact Hk.
    + apply lookup_ge_None in Hlook. unfold len in Hb. lia.
Qed.

Lemma null_byte_512 content :
  null_byte 512 0 (min 512 (len content)) content = true
  <-> exists i : nat, (i < 512)%nat /\ content !! i = Some 0.
Proof.
  rewrite null_byte_spec; [|lia | unfold min; destruct (Z.ltb_spec 512 (len content)); lia].
  assert (Hmin : forall k, k < min 512 (len content) <-> k < 512 /\ k < len content).
  { intros k. unfold min. destruct (Z.ltb_spec 512 (len content)); lia. }
  split.
  - intros (k & [? Hk] & ? & Hlook). exists (Z.to_nat k). split; [lia | exact Hlook].
  - intros (i & Hi & Hlook). exists (Z.of_nat i).
    rewrite Nat2Z.id. split; [|split; [lia | exact Hlook]].
    split; [lia|]. apply Hmin. split; [lia|].
    apply lookup_lt_Some in Hlook. unfold len. lia.
Qed.

(** X19: content is taken for binary exactly when it has at least four
    bytes and either starts with one of the signatures for which
    [detectExtension] knows an extension, or has a zero byte among its
    first 512 bytes.  In particular content of fewer than four bytes is
    text, zero bytes or not. *)
Theorem X19_isBinary_spec content :
  isBinary content = true
  <-> 4 <= len content
      /\ (detectExtension content <> ".bin"
          \/ exists i : nat, (i < 512)%nat /\ content !! i = Some 0).
Proof.
  unfold isBinary, detectExtension.
  destruct (Z.ltb_spec (len content) 4) as [Hshort|Hlong];
    [split; [discriminate | intros [? _]; lia]|].
  destruct (pdf content); [split; [intros _; split; [lia | left; discriminate] | reflexivity]|].
  destruct (png content); [split; [intros _; split; [lia | left; discriminate] | reflexivity]|].
  destruct (jpeg content); [split; [intros _; split; [lia | left; discriminate] | reflexivity]|].
  destruct (gif content); [split; [intros _; split; [lia | left; discriminate] | reflexivity]|].
  destruct (webp content); [split; [intros _; split; [lia | left; discriminate] | reflexivity]|].
  rewrite null_byte_512. split.
  - intros H. split; [lia | now right].
  - intros [_ [H|H]]; [contradiction | exact H].
Qed.

Lemma HasPrefix_take (n : nat) (s prefix : list Z) :
  (length prefix <= n)%nat ->
  Bytes.HasPrefix (take n s) prefix = Bytes.HasPrefix s prefix.
Proof.
  revert n s. induction prefix as [|p prefix IH]; intros n s Hn; [now destruct (take n s), s|].
  simpl in Hn. destruct n as [|n]; [lia|]. destruct s as [|b s]; [reflexivity|].
  simpl. rewrite IH by lia. reflexivity.
Qed.

Lemma len_take_512 content :
  len (take 512 content) = claude.min 512 (len content).
Proof.
  unfold len, claude.min. rewrite length_take.
  destruct (Z.ltb_spec 512 (Z.of_nat (length content))); lia.
Qed.

(** X20: [isBinary] and [detectExtension] look at the first 512 bytes
    only: what follows them changes neither answer. *)
Theorem X20_only_the_first_512_bytes_count content :
  isBinary content = isBinary (take 512 content)
  /\ detectExtension content = detectExtension (take 512 content).
Proof.
  assert (Hshort : (len (take 512 content) <? 4) = (len content <? 4)).
  { rewrite len_take_512. unfold claude.min.
    destruct (Z.ltb_spec 512 (len content)), (Z.ltb_spec (len content) 4); try lia;
      reflexivity. }
  assert (Hpdf : pdf (take 512 content) = pdf content)
    by (apply HasPrefix_take; simpl; lia).
  assert (Hpng : png (take 512 content) = png content)
    by (apply HasPrefix_take; simpl; lia).
  assert (Hjpeg : jpeg (take 512 content) = jpeg content)
    by (apply HasPrefix_take; simpl; lia).
  assert (Hgif : gif (take 512 content) = gif content)
    by (unfold gif; rewrite !HasPrefix_take by (simpl; lia); reflexivity).
  assert (Hwebp : webp (take 512 content) = webp content).
  { unfold webp, Bytes.slice. rewrite len_take_512.
    replace (12 <=? claude.min 512 (len content)) with (12 <=? len content)
      by (unfold claude.min;
          destruct (Z.ltb_spec 512 (len content)), (Z.leb_spec 12 (len content));
          try lia; symmetry; apply Z.leb_le; lia).
    rewrite !skipn_firstn_comm, !firstn_firstn. reflexivity. }
  assert (Hnull : null_byte 512 0 (claude.min 512 (len (take 512 content))) (take 512 content)
                  = null_byte 512 0 (claude.min 512 (len content)) content).
  { apply eq_true_iff_eq. rewrite !null_byte_512.
    split; intros (i & Hi & Hlook); exists i; (split; [exact Hi|]).
    - now rewrite lookup_take_lt in Hlook.
    - now rewrite lookup_take_lt. }
  unfold isBinary, detectExtension.
  rewrite Hshort, Hpdf, Hpng, Hjpeg, Hgif, Hwebp, Hnull. split; reflexivity.
Qed.

End Content.

(* ===================================================================== *)
(** * The HTTP transports                                                *)
(* ===================================================================== *)

Section Transports.

Local Arguments String.append _ _ : simpl nomatch.

Implicit Types (net : Net) (alert : check.Alert.t) (req : http.Request).

(** X21: the text that [Twilio.Send] puts into the form field [Body] is
    the title, followed by a colon, a space and the message when the
    message is not empty; when that text is longer than 1600 bytes, its
    first 1597 bytes followed by three dots are sent in its place.  So the
    field never has more than 1600 bytes.  The fields [To] and [From] are
    those of the notifier. *)
Theorem X21_Twilio_body_fits_an_SMS (t : Twilio.t) net alert req :
  fst (Twilio.Send t net alert) = Some req ->
  let full :=
    check.Alert.Title alert
    +:+ (if String.eqb (check.Alert.Message alert) "" then ""
         else ": " +:+ check.Alert.Message alert) in
  exists values body,
    http.Body req = http.Form values
    /\ values !! "Body" = Some body
    /\ values !! "To" = Some (Twilio.to t)
    /\ values !! "From" = Some (Twilio.from t)
    /\ (String.length body <= 1600)%nat
    /\ ((String.length full <= 1600)%nat -> body = full)
    /\ ((1600 < String.length full)%nat ->
        body = String.substring 0 1597 full +:+ "...").
Proof.
  intros Hreq full.
  assert (Hfull : (if negb (String.eqb (check.Alert.Message alert) "")
                   then check.Alert.Title alert +:+ ": " +:+ check.Alert.Message alert
                   else check.Alert.Title alert) = full).
  { subst full. destruct (String.eqb (check.Alert.Message alert) ""); simpl;
      [now rewrite append_nil_r | reflexivity]. }
  unfold Twilio.Send in Hreq. rewrite Hfull in Hreq.
  set (body := if 1600 <? Z.of_nat (String.length full)
               then String.substring 0 1597 full +:+ "..." else full) in Hreq.
  assert (Hbody : (String.length body <= 1600)%nat
                  /\ ((String.length full <= 1600)%nat -> body = full)
                  /\ ((1600 < String.length full)%nat ->
                      body = String.substring 0 1597 full +:+ "...")).
  { subst body. destruct (Z.ltb_spec 1600 (Z.of_nat (String.length full))) as [Hlong|Hfit].
    - split; [|split; [lia | reflexivity]].
      rewrite append_length, substring_0_length by lia. simpl. lia.
    - split; [lia|]. split; [reflexivity | lia]. }
  destruct (new_request net); [discriminate|].
  exists (<["Body" := body]> (<["From" := Twilio.from t]> (<["To" := Twilio.to t]> ∅))), body.
  split; [destruct (do net) as [e|st]; [|destruct ((st <? 200) || (300 <=? st))];
          simpl in Hreq; injection Hreq as <-; reflexivity|].
  split; [apply lookup_insert_eq|].
  split; [rewrite !lookup_insert_ne by discriminate; apply lookup_insert_eq|].
  split; [rewrite lookup_insert_ne by discriminate; apply lookup_insert_eq|].
  exact Hbody.
Qed.

Lemma X21_Twilio_body_fits_an_SMS_witness :
  exists body : string, (String.length body <= 1600)%nat.
Proof.
  edestruct (X21_Twilio_body_fits_an_SMS fixtures.sms (fixtures.answered 201)
               fixtures.site_down)
    as (values & body & _ & _ & _ & _ & Hlen & _).
  - vm_compute. reflexivity.
  - exists body. exact Hlen.
Defined.

(** X22: an [Ntfy] notifier whose server was given with a slash at its end
    creates its request from the raw URL made of the server, one slash and
    the topic: the slash of the option is removed before the one of [Send]
    is added.  The request handed to the client is a POST for that URL as
    the library has parsed it; the message is its body, the title is in
    the header [Title], and the header [Tags] is set exactly when the alert
    has tags. *)
Theorem X22_Ntfy_posts_to_server_slash_topic
        (server topic : string) (parse : string -> error + string)
        (do : http.RoundTrip) alert req :
  fst (Ntfy.Send (Ntfy.NewNtfy topic [Ntfy.WithNtfyServer (server +:+ "/")]) parse do alert)
  = Some req ->
  exists parsed,
    parse (server +:+ "/" +:+ topic) = inr parsed
    /\ http.URL req = parsed
    /\ http.Method req = "POST"
    /\ http.Body req = http.Text (check.Alert.Message alert)
    /\ http.Header req !! "Title" = Some (check.Alert.Title alert)
    /\ (http.Header req !! "Tags" = None <-> check.Alert.Tags alert = []).
Proof.
  unfold Ntfy.NewNtfy, Ntfy.WithNtfyServer, Ntfy.Send, http.NewRequestWithContext.
  simpl fold_left. cbv beta. simpl Ntfy.server. simpl Ntfy.topic.
  rewrite TrimSuffix_append.
  destruct (parse (server +:+ "/" +:+ topic)) as [err|parsed]; [discriminate|].
  intros Hreq. exists parsed. split; [reflexivity|].
  destruct (check.Alert.Tags alert) as [|tag tags];
    (destruct do as [e|st]; [|destruct ((st <? 200) || (300 <=? st))]);
    simpl in Hreq; injection Hreq as <-; simpl;
    (split; [reflexivity|]; split; [reflexivity|]; split; [reflexivity|]).
  1-3: split; [rewrite lookup_insert_ne by discriminate; apply lookup_insert_eq|];
       split; [reflexivity|]; intros _;
       rewrite !lookup_insert_ne by discriminate; reflexivity.
  all: split; [rewrite !lookup_insert_ne by discriminate; apply lookup_insert_eq|];
       rewrite lookup_insert_eq; split; discriminate.
Qed.

Lemma X22_Ntfy_posts_to_server_slash_topic_witness :
  exists req parsed,
    fst (Ntfy.Send (Ntfy.NewNtfy "alerts" [Ntfy.WithNtfyServer "https://ntfy.example.org/"])
           fixtures.plain_url (http.Responded 200) fixtures.site_down) = Some req
    /\ fixtures.plain_url "https://ntfy.example.org/alerts" = inr parsed
    /\ http.URL req = parsed.
Proof.
  eexists.
  edestruct (X22_Ntfy_posts_to_server_slash_topic "https://ntfy.example.org" "alerts"
               fixtures.plain_url (http.Responded 200) fixtures.site_down)
    as (parsed & Hp & Hu & _).
  - vm_compute. reflexivity.
  - exists parsed. split; [vm_compute; reflexivity|]. split; [exact Hp | exact Hu].
Defined.

End Transports.

(* ===================================================================== *)
(** * The website probe                                                  *)
(* ===================================================================== *)

Section Website.

Import scheduler.

Local Arguments String.append _ _ : simpl nomatch.

Local Abbreviation chars := list_ascii_of_string.

Lemma prefix_char (a c : ascii) (s : string) :
  String.prefix (String a "") (String c s) = Ascii.eqb a c.
Proof.
  change (String.prefix (String a "") (String c s))
    with (match ascii_dec a c with
          | left _ => String.prefix "" s
          | right _ => false
          end).
  destruct (ascii_dec a c) as [->|Hne].
  - rewrite Ascii.eqb_refl. now destruct s.
  - symmetry. now apply Ascii.eqb_neq.
Qed.

Lemma replace_char (a b : ascii) (s : string) :
  a <> b ->
  ~ In a (chars (strings.replace 0 s (String a "") (String b ""))).
Proof.
  intros Hab. induction s as [|c s IH]; [simpl; tauto|].
  change (strings.replace 0 (String c s) (String a "") (String b ""))
    with (if String.prefix (String a "") (String c s)
          then String b "" +:+ strings.replace 0 s (String a "") (String b "")
          else String c (strings.replace 0 s (String a "") (String b ""))).
  rewrite prefix_char.
  destruct (Ascii.eqb_spec a c) as [<-|Hc]; simpl; intros H; destruct H as [H|H];
    try congruence; exact (IH H).
Qed.

(** X23: the names that [WebsiteUpCheck] and [CourtCaseCheck] build are
    free of the characters they replace: the name of [WebsiteUpCheck(url)]
    starts with [website-] and holds no slash, whatever the URL, and the
    name of [CourtCaseCheck(caseNumber, pdfURL)] starts with [court-case-]
    and holds no space. *)
Theorem X23_check_names_are_sanitised (url caseNumber pdfURL : string) :
  let website := check.Check.Name (checks.WebsiteUpCheck url) in
  let court := check.Check.Name (checks.CourtCaseCheck caseNumber pdfURL) in
  String.prefix "website-" website = true
  /\ ~ In "/"%char (chars website)
  /\ String.prefix "court-case-" court = true
  /\ ~ In " "%char (chars court).
Proof.
  unfold checks.WebsiteUpCheck, checks.CourtCaseCheck. simpl check.Check.Name. cbv zeta.
  split; [exact (prefix_append "website-" _)|]. split.
  { intros Hin. simpl in Hin.
    repeat (destruct Hin as [Hin|Hin]; [discriminate Hin|]).
    refine (replace_char "/" "-" _ _ Hin). discriminate. }
  split; [exact (prefix_append "court-case-" _)|].
  intros Hin. simpl in Hin.
  repeat (destruct Hin as [Hin|Hin]; [discriminate Hin|]).
  refine (replace_char " " "-" _ _ Hin). discriminate.
Qed.

(** X24: when the site answers with a status below 500, 404 included, an
    execution of [WebsiteUpCheck] sends nothing: it resets the backoff and
    asks the ledger to clear the record of the check, which is gone
    afterwards unless the ledger reports a failure. *)
Theorem X24_status_below_500_clears (s : Scheduler) (env : Env) (b : Backoff)
        (url : string) (net : Net) (status : Z) :
  new_request net = None ->
  do net = http.Responded status ->
  status < 500 ->
  run env = checks.WebsiteUpCheck_Run url net ->
  let c := checks.WebsiteUpCheck url in
  let cleared := state.Clear (state s) (exec_io env) (check.Check.Name c) in
  exists o,
    executeCheck s env c b = Some o
    /\ calls o = [CallRun (check.Check.Name c) (run env);
                  CallClear (check.Check.Name c) (snd cleared)]
    /\ backoff o = {| backoffMultiplier := 1; consecutiveFailures := 0 |}
    /\ (snd cleared = None -> state.stored (state (after o)) (check.Check.Name c) = None).
Proof.
  intros Hnew Hdo Hstatus Hrun c. clearbody c. intros cleared.
  unfold checks.WebsiteUpCheck_Run in Hrun. rewrite Hnew, Hdo in Hrun.
  destruct (Z.leb_spec 500 status) as [?|_]; [lia|].
  rewrite (executeCheck_clear s env c b _ Hrun eq_refl).
  eexists. split; [reflexivity|]. simpl. rewrite Hrun.
  split; [reflexivity|]. split; [reflexivity|].
  intros Hok. subst cleared.
  destruct (state.Clear (state s) (exec_io env) (check.Check.Name c)) as [st err] eqn:Hc.
  simpl in Hok. subst err. simpl. exact (Clear_ok _ _ _ _ Hc).
Qed.

Lemma X24_status_below_500_clears_witness :
  exists o,
    executeCheck (New sample.stdout sample.empty_memory) fixtures.not_found
                 (checks.WebsiteUpCheck "https://example.com/health") sample.initial
    = Some o
    /\ backoff o = {| backoffMultiplier := 1; consecutiveFailures := 0 |}.
Proof.
  destruct (X24_status_below_500_clears (New sample.stdout sample.empty_memory)
              fixtures.not_found sample.initial "https://example.com/health"
              (fixtures.answered 404) 404)
    as (o & H1 & _ & H3 & _).
  - reflexivity.
  - reflexivity.
  - lia.
  - reflexivity.
  - exists o. split; [exact H1 | exact H3].
Defined.

End Website.

(* ===================================================================== *)
(** * The fan-out notifier under the scheduler                           *)
(* ===================================================================== *)

Section FanOutUnderScheduler.

Import scheduler.




End FanOutUnderScheduler.

(* ===================================================================== *)
(** * A condition that persists over the rounds                          *)
(* ===================================================================== *)

Section PersistentCondition.

Import scheduler.

Variable result : check.CheckResult.t.

(** A round in which the probe returns [result] and no database statement
    fails. *)
Local Abbreviation steady :=
  (fun env : Env =>
     run env = check.RunOk result /\ query_io env = None /\ exec_io env = None).

Lemma answered_without_failure (st : state.State) : state.answered st None.
Proof. now destruct st. Qed.

Lemma loop_suppressed (envs : list Env) (s : Scheduler) (c : check.Check.t) (b : Backoff)
      (ws : list Z) (l : list Call) :
  Forall steady envs ->
  check.CheckResult.ShouldAlert result = true ->
  state.stored (state s) (check.Check.Name c)
  = Some (state.Hash (check.CheckResult.Title result) (check.CheckResult.Message result)) ->
  exists t,
    loop s c b envs ws l = Some t
    /\ final t = s
    /\ List.filter is_send (log t) = List.filter is_send l.
Proof.
  intros Hall Hyes Hrec. revert b ws l.
  induction envs as [|env envs IH]; intros b ws l; simpl.
  - eexists. split; [reflexivity|]. split; reflexivity.
  - inversion Hall as [|? ? (Hrun & Hq & _) Hall']; subst.
    rewrite (recorded_suppressed s env c b result Hrun Hyes Hrec)
      by (rewrite Hq; apply answered_without_failure).
    simpl.
    destruct (IH Hall' {| backoffMultiplier := 1; consecutiveFailures := 0 |}
                (ws ++ [interval c b])
                (l ++ [CallRun (check.Check.Name c) (check.RunOk result);
                       CallShouldAlert (check.Check.Name c)
                         (state.Hash (check.CheckResult.Title result)
                                     (check.CheckResult.Message result)) false]))
      as (t & Ht & Hs & Hsends).
    exists t. split; [exact Ht|]. split; [exact Hs|].
    rewrite Hsends, List.filter_app. simpl. now rewrite app_nil_r.
Qed.

(** X26: a condition that persists is notified once.  When the ledger
    holds no record of the condition, the probe returns the same alerting
    result at the start and in every round, the notifier accepts the
    alert and no database statement fails, then [runCheck] calls [Send]
    exactly once, in the first execution, and the ledger holds the hash
    of the condition from then on. *)
Theorem X26_persistent_condition_is_sent_once
        (s : Scheduler) (c : check.Check.t) (env0 : Env) (envs : list Env) :
  let name := check.Check.Name c in
  let h := state.Hash (check.CheckResult.Title result) (check.CheckResult.Message result) in
  Forall steady (env0 :: envs) ->
  check.CheckResult.ShouldAlert result = true ->
  notifier.Send (notifier s) (check.NewAlertFromResult name result (now_alert env0)) = None ->
  state.stored (state s) name <> Some h ->
  exists t,
    runCheck s c env0 envs = Some t
    /\ List.filter is_send (log t)
       = [CallSend (check.NewAlertFromResult name result (now_alert env0)) None]
    /\ state.stored (state (final t)) name = Some h.
Proof.
  intros name h Hall Hyes Hsend Hnew.
  inversion Hall as [|? ? (Hrun & Hq & He) Hall']; subst.
  assert (Hshould : snd (state.ShouldAlert (state s) (query_io env0) name h) = true).
  { rewrite Hq, (ShouldAlert_answered _ _ _ _ (answered_without_failure _)).
    now apply bool_decide_eq_true. }
  unfold runCheck.
  pose proof (executeCheck_alert s env0 c
                {| backoffMultiplier := 1; consecutiveFailures := 0 |}
                result Hrun Hyes Hshould) as Hexec.
  fold name h in Hexec. rewrite Hsend in Hexec. cbv zeta in Hexec. rewrite Hexec.
  cbn [after backoff calls].
  destruct (state.MarkAlerted (state s) (exec_io env0) (now_mark env0) name h)
    as [st err] eqn:Hmark.
  assert (err = None) as ->.
  { rewrite He in Hmark. destruct (state s); simpl in Hmark; congruence. }
  pose proof (MarkAlerted_ok _ _ _ _ _ _ Hmark) as Hrec.
  cbn [fst snd].
  destruct (loop_suppressed envs (with_state s st) c
              {| backoffMultiplier := 1; consecutiveFailures := 0 |} []
              [CallRun name (check.RunOk result); CallShouldAlert name h true;
               CallSend (check.NewAlertFromResult name result (now_alert env0)) None;
               CallMarkAlerted name h None] Hall' Hyes Hrec)
    as (t & Ht & Hs & Hsends).
  exists t. split; [exact Ht|]. split; [exact Hsends|]. now rewrite Hs.
Qed.

End PersistentCondition.

Lemma X26_persistent_condition_is_sent_once_witness :
  exists t,
    scheduler.runCheck (scheduler.New sample.stdout sample.empty_sqlite) sample.site_up
                       (sample.returns sample.down)
                       [sample.returns sample.down; sample.returns sample.down] = Some t
    /\ length (List.filter is_send (scheduler.log t)) = 1%nat.
Proof.
  destruct (X26_persistent_condition_is_sent_once sample.down
              (scheduler.New sample.stdout sample.empty_sqlite) sample.site_up
              (sample.returns sample.down)
              [sample.returns sample.down; sample.returns sample.down])
    as (t & H1 & H2 & _).
  - repeat constructor.
  - reflexivity.
  - reflexivity.
  - vm_compute. discriminate.
  - exists t. split; [exact H1 | now rewrite H2].
Defined.

(* ===================================================================== *)
(** * Validation accepts what it requires                                *)
(* ===================================================================== *)

Section ValidationComplete.

Import config.

(** X27: [Validate] rejects nothing that has what it requires: a
    configuration whose state type is empty, ["memory"], or ["sqlite"]
    with a database path, and whose notification channels are all of type
    ["stdout"], or of type ["ntfy"], ["twilio"] or ["sendgrid"] with the
    fields their type requires, is accepted. *)
Theorem X27_Validate_accepts_what_it_requires (c : Config.t) :
  StateConfig.Type_ (Config.State c) = ""
  \/ StateConfig.Type_ (Config.State c) = "memory"
  \/ (StateConfig.Type_ (Config.State c) = "sqlite"
      /\ StateConfig.DBPath (Config.State c) <> "") ->
  Forall (fun n : NotificationConfig.t =>
            NotificationConfig.Type_ n = "stdout"
            \/ (NotificationConfig.Type_ n = "ntfy" /\ NotificationConfig.Topic n <> "")
            \/ (NotificationConfig.Type_ n = "twilio"
                /\ NotificationConfig.AccountSID n <> ""
                /\ NotificationConfig.AuthToken n <> ""
                /\ NotificationConfig.From n <> ""
                /\ NotificationConfig.To n <> "")
            \/ (NotificationConfig.Type_ n = "sendgrid"
                /\ NotificationConfig.APIKey n <> ""
                /\ NotificationConfig.From n <> ""
                /\ NotificationConfig.To n <> ""))
         (Config.Notifications c) ->
  snd (Validate c) = None.
Proof.
  intros Hstate Hall. apply (range_accepts 0) in Hall. unfold Validate.
  destruct Hstate as [He | [Hm | [Hs Hd]]].
  - rewrite He. simpl. exact Hall.
  - rewrite Hm. simpl. rewrite Hm. simpl. exact Hall.
  - rewrite Hs. simpl. rewrite Hs. simpl.
    destruct (String.eqb_spec (StateConfig.DBPath (Config.State c)) ""); [contradiction|].
    exact Hall.
Qed.

Lemma X27_Validate_accepts_what_it_requires_witness :
  snd (Validate (fixtures.configuration [fixtures.stdout; fixtures.ntfy "alerts"])) = None.
Proof.
  apply (X27_Validate_accepts_what_it_requires
           (fixtures.configuration [fixtures.stdout; fixtures.ntfy "alerts"])).
  - left. reflexivity.
  - constructor; [left; reflexivity|]. constructor; [|constructor].
    right. left. split; [reflexivity | discriminate].
Defined.

End ValidationComplete.
